(** * eth_arp_dpi: the TAP <-> DPI mailbox bridge of [sw/eth_dpi.c]

    A shallow embedding of [fd_read], [fd_write], [print_bytes] and
    [eth_dpi_main].  The program is a single-threaded loop around calls
    into the operating system (open, ioctl, fcntl, select, read, write,
    close) and into the simulator (the DPI functions declared in
    [sw/eth_dpi.h]).  Every such call is recorded as an [event]; what the
    callee answers is an input of the model.  The only program state that
    outlives a call is the global [uint8_t buffer[MTU_SIZE]]. *)

From Stdlib Require Import ZArith Lia Ascii String.
From Stdlib Require Import Strings.Byte.
From stdpp Require Import base list.

Local Open Scope Z_scope.

(** ** Constants *)

Module Const.

(** [#define MTU_SIZE (1500)], eth_dpi.c line 14. *)
Definition MTU_SIZE : Z := 1500.

(** The remaining constants come from the Linux headers the file includes
    (linux/if.h, linux/if_tun.h, fcntl.h, errno.h); the values are those
    of the x86-64 ABI.  No proof below looks at a value other than to
    tell [EINTR] and [EAGAIN] from the other error numbers. *)
Definition IFNAMSIZ : Z := 16.
Definition IFF_TAP : Z := 0x0002.
Definition IFF_NO_PI : Z := 0x1000.
Definition TUNSETIFF : Z := 0x400454ca.
Definition O_RDWR : Z := 2.
Definition O_NONBLOCK : Z := 0x800.
Definition F_GETFL : Z := 3.
Definition F_SETFL : Z := 4.
Definition EINTR : Z := 4.
Definition EAGAIN : Z := 11.
Definition EBADF : Z := 9.

End Const.
Export Const.

(** ** C scalars *)

(** Conversion of an [int] to [uint16_t], as happens to the second
    argument of [host_rx_pkt_get_data (uint8_t *, uint16_t)]. *)
Definition to_uint16 (i : Z) : Z := i mod 65536.

(** Conversion of an [int] to [uint32_t], as happens to the second
    argument of [print_bytes (uint8_t *, uint32_t)]. *)
Definition to_uint32 (i : Z) : Z := i mod 4294967296.

(** ** Character arrays *)

Definition NUL : ascii := Ascii.zero.

Definition is_NUL (c : ascii) : bool := Ascii.eqb c NUL.

(** The characters of a C string held in an array: all up to the first
    terminator. *)
Fixpoint c_str (arr : list ascii) : string :=
  match arr with
  | [] => EmptyString
  | c :: rest => if is_NUL c then EmptyString else String c (c_str rest)
  end.

(** [char a[n] = "lit"]: the literal, then terminators to the end. *)
Definition char_array (n : Z) (lit : string) : list ascii :=
  let cs := list_ascii_of_string lit in
  cs ++ replicate (Z.to_nat n - length cs) NUL.

(** [strncpy (dst, src, n)]: the characters of [src] up to its terminator,
    at most [n] of them, padded with terminators to [n]. *)
Definition strncpy (src : list ascii) (n : Z) : list ascii :=
  let cs := take (Z.to_nat n) (list_ascii_of_string (c_str src)) in
  cs ++ replicate (Z.to_nat n - length cs) NUL.

(** ** Events: the calls the program makes *)

(** An argument of a [printf] call. *)
Inductive parg : Type :=
| PInt (z : Z)
| PStr (s : string)
| PStrerror (errnum : Z).

(** One constructor per function called.  Arguments are recorded as
    passed.  [write (fd, buffer, n)] is [EvWrite fd data] when the count
    lies within the array, [data] being the [n] bytes the buffer holds, and
    [EvWriteOutside fd n] when it does not ([n] negative or above
    [MTU_SIZE]): the bytes handed over are then not those of the array.
    [EvRxPktGetData pos index] stands for
    [host_rx_pkt_get_data (&buffer[pos], index)], whatever [pos] is, and
    [EvSelect] lists the descriptors in [rd_set] and the two fields of the
    timeout. *)
Inductive event : Type :=
| EvOpen (path : string) (flags : Z)
| EvIoctl (fd request : Z) (ifr_name : list ascii) (ifr_flags : Z)
| EvFcntl (fd cmd arg : Z)
| EvClose (fd : Z)
| EvHostDelay (nclk : Z)
| EvSelect (nfds : Z) (rd_set : list Z) (tv_sec tv_usec : Z)
| EvRead (fd n : Z)
| EvWrite (fd : Z) (data : list byte)
| EvWriteOutside (fd n : Z)
| EvTxDataPush (b : byte)
| EvTxTransferInit
| EvRxPktValid
| EvRxPktPull
| EvRxPktGetData (pos index : Z)
| EvPrintf (fmt : string) (args : list parg)
| EvPerror (s : string).

Definition trace : Type := list event.

(** ** What the callees answer *)

(** [read]: failure (-1), or the frame the TAP device holds. *)
Inductive read_result : Type :=
| RdFail
| RdFrame (data : list byte).

(** Answers that matter before the loop starts. *)
Record startup_input : Type := {
  open_ret : Z;       (* open ("/dev/net/tun", O_RDWR) *)
  ioctl_ret : Z;      (* ioctl (tap_fd, TUNSETIFF, &ifr) *)
  ioctl_errno : Z;    (* errno after it *)
  getfl_ret : Z       (* fcntl (tap_fd, F_GETFL, 0) *)
}.

(** Answers during one pass of the loop.  Each is used only if the pass
    makes the call. *)
Record iter_input : Type := {
  sel_ret : Z;              (* select (...) *)
  sel_errno : Z;            (* errno after it *)
  sel_isset : bool;         (* FD_ISSET (tap_fd, &rd_set) after it *)
  rd_result : read_result;  (* read (tap_fd, buffer, MTU_SIZE) *)
  rx_npkt : Z;              (* *npkt after host_rx_pkt_valid *)
  rx_pkt_len : Z;           (* *pkt_len after host_rx_pkt_pull *)
  rx_data : Z -> byte;      (* *data_o after host_rx_pkt_get_data (_, index) *)
  wr_ret : Z                (* write (tap_fd, buffer, pkt_len) *)
}.

(** ** The monad of the embedding *)

(** How a computation ends when it does not fall through. *)
Inductive stop : Type :=
| Returned (code : Z)   (* [return code] in eth_dpi_main *)
| Exited (status : Z)   (* [exit (status)] *)
| Continue              (* [continue] *)
| Break                 (* [break] *)
| OutOfBounds           (* [buffer[i]] read outside the array *)
| Pending.              (* still looping when the recorded answers end *)

Inductive result (A : Type) : Type :=
| Val (a : A)
| Stop (s : stop).
Arguments Val {A} a.
Arguments Stop {A} s.

(** A computation reads and writes the frame buffer, emits events and
    either yields a value or stops. *)
Definition M (A : Type) : Type := list byte -> trace * list byte * result A.

Definition run_trace {A} (r : trace * list byte * result A) : trace := r.1.1.
Definition run_buffer {A} (r : trace * list byte * result A) : list byte := r.1.2.
Definition run_result {A} (r : trace * list byte * result A) : result A := r.2.

#[global] Instance M_ret : MRet M := fun A a buf => ([], buf, Val a).

#[global] Instance M_bind : MBind M := fun A B k m buf =>
  match m buf with
  | (t1, buf1, Val a) =>
      match k a buf1 with
      | (t2, buf2, r) => (t1 ++ t2, buf2, r)
      end
  | (t1, buf1, Stop s) => (t1, buf1, Stop s)
  end.

Definition emit (e : event) : M unit := fun buf => ([e], buf, Val tt).

Definition halt {A} (s : stop) : M A := fun buf => ([], buf, Stop s).

(** [for (int i = 0; i < n; i++) body (i)] *)
Fixpoint for_from (i : Z) (count : nat) (body : Z -> M unit) : M unit :=
  match count with
  | O => mret tt
  | S count' => body i;; for_from (i + 1) count' body
  end.

Definition for_upto (n : Z) (body : Z -> M unit) : M unit :=
  for_from 0 (Z.to_nat n) body.

(** ** The frame buffer *)

(** [uint8_t buffer[MTU_SIZE]], zero-initialised.  An access outside the
    array is undefined behaviour in C.  The program hands the array to its
    callees, and those calls are made whatever the position or the count:
    the embedding records each of them with its argument, so that an
    access outside the array shows in the trace, and goes on as the code
    does.  Only the program's own reads of [buffer[i]] have nothing to
    record; outside the array they stop with [OutOfBounds]. *)
Definition buffer_init : list byte := replicate (Z.to_nat MTU_SIZE) x00.

(** [buffer[i]] as an rvalue. *)
Definition buf_load (i : Z) : M byte := fun buf =>
  if (0 <=? i) && (i <? MTU_SIZE) then
    match buf !! Z.to_nat i with
    | Some b => ([], buf, Val b)
    | None => ([], buf, Stop OutOfBounds)
    end
  else ([], buf, Stop OutOfBounds).

(** [*data_o = b] with [data_o = &buffer[i]], the store the callee of
    [host_rx_pkt_get_data] makes.  Inside the array it sets the byte; a
    store outside lands elsewhere and leaves the array as it is. *)
Definition buf_store (i : Z) (b : byte) : M unit := fun buf =>
  if (0 <=? i) && (i <? MTU_SIZE) then
    ([], <[Z.to_nat i := b]> buf, Val tt)
  else ([], buf, Val tt).

(** Whether [n] bytes from the start of the buffer lie within it. *)
Definition count_fits (n : Z) (buf : list byte) : bool :=
  (0 <=? n) && (n <=? MTU_SIZE) && (Z.to_nat n <=? length buf)%nat.

(** The call [write (fd, buffer, n)] as it is recorded. *)
Definition write_call (fd n : Z) (buf : list byte) : event :=
  if count_fits n buf then EvWrite fd (take (Z.to_nat n) buf)
  else EvWriteOutside fd n.

(** [data] placed at the start of the buffer, as [read] leaves it. *)
Definition buf_fill (data : list byte) : M unit := fun buf =>
  if (length data <=? length buf)%nat then
    ([], data ++ drop (length data) buf, Val tt)
  else ([], buf, Stop OutOfBounds).

(** A buffer of the declared size. *)
Definition wf_buffer (buf : list byte) : Prop :=
  length buf = Z.to_nat MTU_SIZE.

(** ** System calls on the TAP descriptor

    Both [fd_read] and [fd_write] are only ever called with
    [buf = &buffer[0]], so the pointer argument is left implicit. *)

(** [read (fd, buffer, n)]: at most [n] bytes of the pending frame land at
    the start of the buffer; the result is their number, or -1. *)
Definition sys_read (fd n : Z) (r : read_result) : M Z :=
  emit (EvRead fd n);;
  match r with
  | RdFail => mret (-1)
  | RdFrame data =>
      let got := take (Z.to_nat n) data in
      buf_fill got;;
      mret (Z.of_nat (length got))
  end.

(** [write (fd, buffer, n)]: the call is made for every [n]; the kernel
    is handed [n] bytes from the start of the buffer and answers [r]. *)
Definition sys_write (fd n : Z) (r : Z) : M Z := fun buf =>
  ([write_call fd n buf], buf, Val r).

(** eth_dpi.c lines 25-34. *)
Definition fd_read (fd n : Z) (r : read_result) : M Z :=
  nread ← sys_read fd n r;
  if nread <? 0 then
    emit (EvPerror "Reading data");;
    halt (Exited 1)
  else mret nread.

(** eth_dpi.c lines 43-52. *)
Definition fd_write (fd n : Z) (r : Z) : M Z :=
  nwrite ← sys_write fd n r;
  if nwrite <? 0 then
    emit (EvPerror "Writing data");;
    halt (Exited 1)
  else mret nwrite.

(** eth_dpi.c lines 59-67; [data] is always [buffer]. *)
Definition print_bytes (len : Z) : M unit :=
  for_upto len (fun i =>
    (if (0 <? i) && (Z.rem i 16 =? 0)
     then emit (EvPrintf "\n" [])
     else mret tt);;
    b ← buf_load i;
    emit (EvPrintf "%02x " [PInt (Z.of_N (Byte.to_N b))]));;
  emit (EvPrintf "\n" []).

(** ** One pass of the main loop *)

(** Lines 137-150: the body of [if (FD_ISSET (tap_fd, &rd_set))]. *)
Definition outbound (tap_fd : Z) (inp : iter_input) : M unit :=
  nbytes ← fd_read tap_fd MTU_SIZE (rd_result inp);
  if negb (nbytes =? 0) then
    emit (EvPrintf "HOST: TAP-RD: nbytes=%03d\n" [PInt nbytes]);;
    print_bytes (to_uint32 nbytes);;
    for_upto nbytes (fun i =>
      b ← buf_load i;
      emit (EvTxDataPush b));;
    emit EvTxTransferInit
  else
    emit (EvPrintf "HOST: !!! Bad packet !!!: nbytes=%x\n" [PInt nbytes]).

(** Lines 164-166: the body of the copy loop.  The index parameter is a
    [uint16_t]; the pointer is [&buffer[i]] for every [i] below
    [pkt_len]. *)
Definition get_data_body (inp : iter_input) (i : Z) : M unit :=
  emit (EvRxPktGetData i (to_uint16 i));;
  buf_store i (rx_data inp (to_uint16 i)).

(** Lines 153-168.  [pkt_len] is used as pulled: it bounds the copy loop
    and is the count of the write, which follows the loop in every case. *)
Definition inbound (tap_fd : Z) (inp : iter_input) : M unit :=
  emit EvRxPktValid;;
  let npkt := rx_npkt inp in
  if 0 <? npkt then
    emit EvRxPktPull;;
    let pkt_len := rx_pkt_len inp in
    emit (EvPrintf "HOST: send packet - sz=%d\n" [PInt pkt_len]);;
    for_upto pkt_len (get_data_body inp);;
    fd_write tap_fd pkt_len (wr_ret inp);;
    mret tt
  else mret tt.

(** Lines 111-133: delay, poll, and what a failed poll leads to. *)
Definition poll (tap_fd : Z) (inp : iter_input) : M unit :=
  emit (EvHostDelay 1000);;
  emit (EvSelect (tap_fd + 1) [tap_fd] 0 0);;
  let ret := sel_ret inp in
  if ret <? 0 then
    let errsv := sel_errno inp in
    if errsv =? EINTR then halt Continue
    else if errsv =? EAGAIN then halt Continue
    else
      emit (EvPrintf
              "HOST: ERROR: failed to read from TAP device: fd=%x, errsv=%x :  %s\n"
              [PInt tap_fd; PInt errsv; PStrerror errsv]);;
      emit (EvClose tap_fd);;
      halt (Returned (-5))
  else mret tt.

(** Lines 107-169: the body of [while (1)]. *)
Definition loop_body (tap_fd : Z) (inp : iter_input) : M unit :=
  poll tap_fd inp;;
  (if sel_isset inp then outbound tap_fd inp else mret tt);;
  inbound tap_fd inp.

(** [while (1) body]: one pass, then the rest of the loop.  [continue] and
    falling through go on to the next pass, [break] leaves the loop, every
    other stop leaves the function. *)
Definition while_step (body rest : M unit) : M unit := fun buf =>
  match body buf with
  | (t1, buf1, Val _) | (t1, buf1, Stop Continue) =>
      match rest buf1 with
      | (t2, buf2, r) => (t1 ++ t2, buf2, r)
      end
  | (t1, buf1, Stop Break) => (t1, buf1, Val tt)
  | (t1, buf1, Stop s) => (t1, buf1, Stop s)
  end.

(** The loop, run for as many passes as answers were recorded. *)
Fixpoint main_loop (tap_fd : Z) (script : list iter_input) : M unit :=
  match script with
  | [] => halt Pending
  | inp :: rest => while_step (loop_body tap_fd inp) (main_loop tap_fd rest)
  end.

(** ** eth_dpi_main, lines 75-177 *)

Definition eth_dpi_main (argc : Z) (argv : list string)
    (su : startup_input) (script : list iter_input) : M Z :=
  let tap_name := char_array IFNAMSIZ "tap0" in
  emit (EvOpen "/dev/net/tun" O_RDWR);;
  let tap_fd := open_ret su in
  if tap_fd <? 0 then
    emit (EvPrintf "HOST: ERROR: failed to open TAP device: fd=%x\n"
            [PInt tap_fd]);;
    halt (Returned (-1))
  else
    let ifr_flags := Z.lor IFF_TAP IFF_NO_PI in
    let ifr_name := strncpy tap_name IFNAMSIZ in
    emit (EvIoctl tap_fd TUNSETIFF ifr_name ifr_flags);;
    let err := ioctl_ret su in
    if err <? 0 then
      let errsv := ioctl_errno su in
      emit (EvPrintf
              "HOST: ERROR: failed to set TAP device name: fd=%x, errsv=%x :  %s\n"
              [PInt tap_fd; PInt errsv; PStrerror errsv]);;
      emit (EvClose tap_fd);;
      halt (Returned (-2))
    else
      emit (EvPrintf "HOST: TAP device %s is ready\n" [PStr (c_str ifr_name)]);;
      emit (EvFcntl tap_fd F_GETFL 0);;
      let flags := getfl_ret su in
      emit (EvFcntl tap_fd F_SETFL (Z.lor flags O_NONBLOCK));;
      main_loop tap_fd script;;
      emit (EvPrintf "HOST exiting...\n" []);;
      emit (EvClose tap_fd);;
      halt (Returned 0).

(** A run of the program from the zero-initialised buffer. *)
Definition run (argc : Z) (argv : list string)
    (su : startup_input) (script : list iter_input)
    : trace * list byte * result Z :=
  eth_dpi_main argc argv su script buffer_init.

(** ** Observations on traces *)

(** Calls into the outbound side of the mailbox. *)
Definition is_tx (e : event) : bool :=
  match e with
  | EvTxDataPush _ | EvTxTransferInit => true
  | _ => false
  end.

(** Calls into the inbound side of the mailbox. *)
Definition is_rx (e : event) : bool :=
  match e with
  | EvRxPktValid | EvRxPktPull | EvRxPktGetData _ _ => true
  | _ => false
  end.

Definition is_mailbox (e : event) : bool := is_tx e || is_rx e.

(** Calls on the host transport that move a frame. *)
Definition is_host_io (e : event) : bool :=
  match e with
  | EvRead _ _ | EvWrite _ _ | EvWriteOutside _ _ => true
  | _ => false
  end.

(** Diagnostics: [printf] and [perror]. *)
Definition is_log (e : event) : bool :=
  match e with
  | EvPrintf _ _ | EvPerror _ => true
  | _ => false
  end.

Definition is_close (e : event) : bool :=
  match e with
  | EvClose _ => true
  | _ => false
  end.

(** Everything but diagnostics: the calls that act on the transport, the
    mailbox or the simulator clock. *)
Definition actions (t : trace) : trace :=
  List.filter (fun e => negb (is_log e)) t.

(** The [index] arguments of the [host_rx_pkt_get_data] calls, in order. *)
Definition get_data_indices (t : trace) : list Z :=
  omap (fun e => match e with EvRxPktGetData _ i => Some i | _ => None end) t.

(** The frames handed to [write] out of the buffer, in order. *)
Definition written_frames (t : trace) : list (list byte) :=
  omap (fun e => match e with EvWrite _ d => Some d | _ => None end) t.

(** The interface names handed to [ioctl], as C strings. *)
Definition ioctl_names (t : trace) : list string :=
  omap (fun e => match e with EvIoctl _ _ n _ => Some (c_str n) | _ => None end) t.

(** A trace of diagnostics only. *)
Definition quiet (t : trace) : Prop := Forall (fun e => is_log e = true) t.

(** ** Named parts of traces and runs *)

Definition poll_calls (tap_fd : Z) : trace :=
  [EvHostDelay 1000; EvSelect (tap_fd + 1) [tap_fd] 0 0].

Definition poll_failure_report (tap_fd errsv : Z) : event :=
  EvPrintf "HOST: ERROR: failed to read from TAP device: fd=%x, errsv=%x :  %s\n"
    [PInt tap_fd; PInt errsv; PStrerror errsv].

(** What [read (tap_fd, buffer, MTU_SIZE)] keeps of a pending frame. *)
Definition frame_read (data : list byte) : list byte :=
  take (Z.to_nat MTU_SIZE) data.

Definition bad_packet_report (nbytes : Z) : event :=
  EvPrintf "HOST: !!! Bad packet !!!: nbytes=%x\n" [PInt nbytes].

(** The bytes the mailbox delivers for a pulled frame of [len] bytes. *)
Definition rx_frame (inp : iter_input) (len : Z) : list byte :=
  rx_data inp <$> seqZ 0 len.

Definition send_report (pkt_len : Z) : event :=
  EvPrintf "HOST: send packet - sz=%d\n" [PInt pkt_len].

(** Every event [m] emits satisfies [P], and if [m] stops it stops in a
    way that satisfies [R], whatever the buffer holds. *)
Definition within (P : event -> Prop) (R : stop -> Prop) {A} (m : M A) : Prop :=
  forall buf,
    Forall P (run_trace (m buf)) /\
    (forall s, run_result (m buf) = Stop s -> R s).

(** How a transfer step can stop: [exit (1)] in [fd_read] or [fd_write],
    or a read outside the buffer. *)
Definition transfer_stop (s : stop) : Prop := s = Exited 1 \/ s = OutOfBounds.

Definition is_write (e : event) : bool :=
  match e with
  | EvWrite _ _ | EvWriteOutside _ _ => true
  | _ => false
  end.

(** The calls that make up an inbound transfer. *)
Definition is_inbound_call (e : event) : bool := is_rx e || is_write e.

Definition get_data_calls (len : Z) : trace :=
  (fun j => EvRxPktGetData j j) <$> seqZ 0 len.

(** The calls of the copy loop from position [from] on, [count] of them,
    with the index as the [uint16_t] parameter receives it. *)
Definition get_data_events (from count : Z) : trace :=
  (fun j => EvRxPktGetData j (to_uint16 j)) <$> seqZ from count.

(** A call that hands a callee a position or a count outside the array. *)
Definition outside_buffer (e : event) : bool :=
  match e with
  | EvRxPktGetData pos _ => negb ((0 <=? pos) && (pos <? MTU_SIZE))
  | EvWriteOutside _ _ => true
  | _ => false
  end.

(** The calls a pass can make short of closing the descriptor. *)
Definition is_pass_call (e : event) : bool :=
  match e with
  | EvHostDelay _ | EvSelect _ _ _ _ => true
  | _ => is_log e || is_mailbox e || is_host_io e
  end.

Definition pass_calls (t : trace) : Prop :=
  Forall (fun e => is_pass_call e = true) t.

(** A poll failure that is neither [EINTR] nor [EAGAIN]. *)
Definition poll_is_fatal (inp : iter_input) : Prop :=
  sel_ret inp < 0 /\ sel_errno inp <> EINTR /\ sel_errno inp <> EAGAIN.

(** The ways the loop can be left (or not yet left). *)
Inductive loop_end (tap_fd : Z) (script : list iter_input)
    : trace -> result unit -> Prop :=
| loop_pending t :
    pass_calls t -> loop_end tap_fd script t (Stop Pending)
| loop_exit t :
    pass_calls t -> loop_end tap_fd script t (Stop (Exited 1))
| loop_out_of_bounds t :
    pass_calls t -> loop_end tap_fd script t (Stop OutOfBounds)
| loop_poll_failed t inp :
    pass_calls t -> In inp script -> poll_is_fatal inp ->
    loop_end tap_fd script (t ++ [EvClose tap_fd]) (Stop (Returned (-5))).

(** The interface request handed to [ioctl]. *)
Definition ifr_name : list ascii := strncpy (char_array IFNAMSIZ "tap0") IFNAMSIZ.

Definition open_call : event := EvOpen "/dev/net/tun" O_RDWR.

Definition ioctl_call (tap_fd : Z) : event :=
  EvIoctl tap_fd TUNSETIFF ifr_name (Z.lor IFF_TAP IFF_NO_PI).

(** The calls of a start-up that succeeds, lines 83-103. *)
Definition startup_calls (su : startup_input) : trace :=
  [open_call;
   ioctl_call (open_ret su);
   EvPrintf "HOST: TAP device %s is ready\n" [PStr (c_str ifr_name)];
   EvFcntl (open_ret su) F_GETFL 0;
   EvFcntl (open_ret su) F_SETFL (Z.lor (getfl_ret su) O_NONBLOCK)].

(** ** Further observations *)

(** A computation that leaves the buffer at its size. *)
Definition keeps_size {A} (m : M A) : Prop :=
  forall buf, length (run_buffer (m buf)) = length buf.

(** The values printed by the ["%02x "] calls of [print_bytes], in order. *)
Definition hex_printed (t : trace) : list Z :=
  omap (fun e =>
          match e with
          | EvPrintf fmt [PInt v] =>
              if String.eqb fmt "%02x " then Some v else None
          | _ => None
          end) t.

Definition is_newline (e : event) : bool :=
  match e with
  | EvPrintf fmt [] => String.eqb fmt "\n"
  | _ => false
  end.

(** The number of line ends printed. *)
Definition newlines_printed (t : trace) : nat :=
  length (List.filter is_newline t).

(** The line ends [print_bytes] has printed when it comes to byte [i]. *)
Definition lines_before (i : Z) : Z := if i =? 0 then 0 else (i - 1) / 16.

(** The value [printf] is handed for a byte. *)
Definition byte_value (b : byte) : Z := Z.of_N (Byte.to_N b).

(** The pass reaches its inbound step: the poll succeeded and no read
    failed. *)
Definition reaches_inbound (inp : iter_input) : bool :=
  (0 <=? sel_ret inp)
  && (if sel_isset inp
      then match rd_result inp with RdFail => false | RdFrame _ => true end
      else true).

(** The pulled length, if the mailbox has a frame, is one the buffer can
    hold. *)
Definition pull_fits (inp : iter_input) : bool :=
  (rx_npkt inp <=? 0)
  || ((0 <=? rx_pkt_len inp) && (rx_pkt_len inp <=? MTU_SIZE)).


(** The pass polls successfully, finds the descriptor readable, and its
    read fails. *)
Definition read_failed (inp : iter_input) : Prop :=
  0 <= sel_ret inp /\ sel_isset inp = true /\ rd_result inp = RdFail.


(** Nothing in the answers of the pass stops the loop, whatever length is
    pulled: a failed poll is transient, a read does not fail, and the write
    of a pulled frame does not fail. *)
Definition pass_continues (inp : iter_input) : bool :=
  if sel_ret inp <? 0
  then (sel_errno inp =? EINTR) || (sel_errno inp =? EAGAIN)
  else reaches_inbound inp && ((rx_npkt inp <=? 0) || (0 <=? wr_ret inp)).

(** The pass pulls a frame, of whatever length, and its write fails. *)
Definition pulled_write_failed (inp : iter_input) : Prop :=
  reaches_inbound inp = true /\ 0 < rx_npkt inp /\ wr_ret inp < 0.

(** The frame the pass reads from the host, empty if it reads none. *)
Definition host_frame (inp : iter_input) : list byte :=
  if (0 <=? sel_ret inp) && sel_isset inp
  then match rd_result inp with
       | RdFrame data => frame_read data
       | RdFail => []
       end
  else [].

(** The outbound mailbox calls that forward a frame. *)
Definition tx_calls_of (frame : list byte) : trace :=
  match frame with
  | [] => []
  | _ => (EvTxDataPush <$> frame) ++ [EvTxTransferInit]
  end.




(** Nothing readable and nothing queued. *)
Definition idle_pass (inp : iter_input) : Prop :=
  0 <= sel_ret inp /\ sel_isset inp = false /\ rx_npkt inp <= 0.

(** No condition on how a computation stops. *)
Definition any_stop : stop -> Prop := fun _ => True.

(** The bytes handed to [host_tx_data_push], in order. *)
Definition pushed_bytes (t : trace) : list byte :=
  omap (fun e => match e with EvTxDataPush b => Some b | _ => None end) t.

(** The report of a frame read, with its length. *)
Definition tap_rd_report (nbytes : Z) : event :=
  EvPrintf "HOST: TAP-RD: nbytes=%03d\n" [PInt nbytes].

(** The delay and the poll. *)
Definition is_pacing (e : event) : bool :=
  match e with
  | EvHostDelay _ | EvSelect _ _ _ _ => true
  | _ => false
  end.

(** Dequeuing, copying or writing an inbound frame. *)
Definition is_inbound_move (e : event) : bool :=
  match e with
  | EvRxPktPull | EvRxPktGetData _ _ | EvWrite _ _
  | EvWriteOutside _ _ => true
  | _ => false
  end.

(** The same answers with another result for [write]. *)
Definition with_wr_ret (w : Z) (inp : iter_input) : iter_input :=
  {| sel_ret := sel_ret inp; sel_errno := sel_errno inp;
     sel_isset := sel_isset inp; rd_result := rd_result inp;
     rx_npkt := rx_npkt inp; rx_pkt_len := rx_pkt_len inp;
     rx_data := rx_data inp; wr_ret := w |}.

(** The same answers with another result for [fcntl (..., F_GETFL, 0)]. *)
Definition with_getfl (g : Z) (su : startup_input) : startup_input :=
  {| open_ret := open_ret su; ioctl_ret := ioctl_ret su;
     ioctl_errno := ioctl_errno su; getfl_ret := g |}.

(** The arguments a call has when it is made on descriptor [fd] the way
    [eth_dpi_main] makes it. *)
Definition on_descriptor (fd : Z) (e : event) : Prop :=
  match e with
  | EvOpen path flags => path = "/dev/net/tun"%string /\ flags = O_RDWR
  | EvIoctl f request _ _ => f = fd /\ request = TUNSETIFF
  | EvFcntl f _ _ => f = fd
  | EvClose f => f = fd
  | EvHostDelay nclk => nclk = 1000
  | EvSelect nfds rd_set tv_sec tv_usec =>
      nfds = fd + 1 /\ rd_set = [fd] /\ tv_sec = 0 /\ tv_usec = 0
  | EvRead f n => f = fd /\ n = MTU_SIZE
  | EvWrite f _ => f = fd
  | EvWriteOutside f _ => f = fd
  | _ => True
  end.

(** * Sample inputs *)

Module Sample.

(** A start-up that succeeds with descriptor 3. *)
Definition startup_ok : startup_input :=
  {| open_ret := 3; ioctl_ret := 0; ioctl_errno := 0; getfl_ret := 2 |}.

(** Nothing to do in either direction. *)
Definition pass_idle : iter_input :=
  {| sel_ret := 0; sel_errno := 0; sel_isset := false;
     rd_result := RdFrame [];
     rx_npkt := 0; rx_pkt_len := 0; rx_data := fun _ => x00;
     wr_ret := 0 |}.

(** A three-byte frame from the host and a two-byte frame from the peer. *)
Definition pass_both_ready : iter_input :=
  {| sel_ret := 1; sel_errno := 0; sel_isset := true;
     rd_result := RdFrame [x01; x02; x03];
     rx_npkt := 1; rx_pkt_len := 2;
     rx_data := fun i => if i =? 0 then xaa else xbb;
     wr_ret := 2 |}.

(** The descriptor is readable but the read yields no byte. *)
Definition pass_zero_read : iter_input :=
  {| sel_ret := 1; sel_errno := 0; sel_isset := true;
     rd_result := RdFrame [];
     rx_npkt := 0; rx_pkt_len := 0; rx_data := fun _ => x00;
     wr_ret := 0 |}.

(** The descriptor is readable but the read fails; a frame is queued in
    the mailbox. *)
Definition pass_failed_read : iter_input :=
  {| sel_ret := 1; sel_errno := 0; sel_isset := true;
     rd_result := RdFail;
     rx_npkt := 1; rx_pkt_len := 2; rx_data := fun _ => xaa;
     wr_ret := 2 |}.

(** The poll fails with [errsv]; a frame is queued in the mailbox. *)
Definition pass_poll_failed (errsv : Z) : iter_input :=
  {| sel_ret := -1; sel_errno := errsv; sel_isset := false;
     rd_result := RdFrame [x01];
     rx_npkt := 1; rx_pkt_len := 2; rx_data := fun _ => xaa;
     wr_ret := 2 |}.

(** Nothing to read; the mailbox holds a frame of [len] bytes, all [xaa]. *)
Definition pass_pull (len : Z) : iter_input :=
  {| sel_ret := 0; sel_errno := 0; sel_isset := false;
     rd_result := RdFrame [];
     rx_npkt := 1; rx_pkt_len := len; rx_data := fun _ => xaa;
     wr_ret := len |}.

(** The descriptor is readable but the read yields no byte, and the
    mailbox holds a frame of no bytes. *)
Definition pass_empty_both : iter_input :=
  {| sel_ret := 1; sel_errno := 0; sel_isset := true;
     rd_result := RdFrame [];
     rx_npkt := 1; rx_pkt_len := 0; rx_data := fun _ => x00;
     wr_ret := 0 |}.

End Sample.
Import Sample.

(** * Basic facts *)

Section Monad_facts.
Context {A B : Type}.

Lemma bind_val (m : M A) (k : A -> M B) buf t1 buf1 a :
  m buf = (t1, buf1, Val a) ->
  (m ≫= k) buf = ((t1 ++ run_trace (k a buf1)), run_buffer (k a buf1),
                   run_result (k a buf1)).
Proof.
  intros Hm. unfold mbind, M_bind. rewrite Hm.
  destruct (k a buf1) as [[t2 buf2] r]. reflexivity.
Qed.

Lemma bind_stop (m : M A) (k : A -> M B) buf t1 buf1 s :
  m buf = (t1, buf1, Stop s) ->
  (m ≫= k) buf = (t1, buf1, Stop s).
Proof. intros Hm. unfold mbind, M_bind. rewrite Hm. reflexivity. Qed.

End Monad_facts.

Lemma run_eta {A} (r : trace * list byte * result A) :
  r = (run_trace r, run_buffer r, run_result r).
Proof. destruct r as [[t b] x]. reflexivity. Qed.

Lemma seqZ_succ (i : Z) (c : nat) :
  seqZ i (Z.of_nat (S c)) = i :: seqZ (i + 1) (Z.of_nat c).
Proof.
  rewrite seqZ_cons by lia.
  replace (Z.succ i) with (i + 1) by lia.
  replace (Z.pred (Z.of_nat (S c))) with (Z.of_nat c) by lia.
  reflexivity.
Qed.

Lemma to_uint16_small (i : Z) : 0 <= i < MTU_SIZE -> to_uint16 i = i.
Proof. unfold to_uint16, MTU_SIZE. intros H. apply Z.mod_small. lia. Qed.

Lemma to_uint32_small (i : Z) : 0 <= i <= MTU_SIZE -> to_uint32 i = i.
Proof. unfold to_uint32, MTU_SIZE. intros H. apply Z.mod_small. lia. Qed.

Lemma wf_buffer_init : wf_buffer buffer_init.
Proof. unfold wf_buffer, buffer_init. apply length_replicate. Qed.

(** ** The loops over the buffer *)

Lemma buf_load_in (buf : list byte) (i : Z) (b : byte) :
  0 <= i < MTU_SIZE -> buf !! Z.to_nat i = Some b ->
  buf_load i buf = ([], buf, Val b).
Proof.
  intros Hi Hb. unfold buf_load.
  destruct (Z.leb_spec 0 i); [|lia].
  destruct (Z.ltb_spec i MTU_SIZE); [|lia].
  simpl. rewrite Hb. reflexivity.
Qed.

Lemma buf_store_in (buf : list byte) (i : Z) (b : byte) :
  0 <= i < MTU_SIZE ->
  buf_store i b buf = ([], <[Z.to_nat i := b]> buf, Val tt).
Proof.
  intros Hi. unfold buf_store.
  destruct (Z.leb_spec 0 i); [|lia].
  destruct (Z.ltb_spec i MTU_SIZE); [|lia].
  reflexivity.
Qed.

Lemma buf_store_out (buf : list byte) (i : Z) (b : byte) :
  MTU_SIZE <= i -> buf_store i b buf = ([], buf, Val tt).
Proof.
  intros Hi. unfold buf_store.
  destruct (Z.ltb_spec i MTU_SIZE); [lia|].
  rewrite andb_false_r. reflexivity.
Qed.

(** The push loop of lines 143-145 sends the bytes it walks over, in
    order, and leaves the buffer alone. *)
Lemma push_loop (buf : list byte) (count : nat) (i : Z) :
  0 <= i -> i + Z.of_nat count <= MTU_SIZE ->
  (Z.to_nat i + count <= length buf)%nat ->
  for_from i count (fun i => b ← buf_load i; emit (EvTxDataPush b)) buf
  = (EvTxDataPush <$> take count (drop (Z.to_nat i) buf), buf, Val tt).
Proof.
  revert i. induction count as [|c IH]; intros i Hi Hmtu Hlen.
  - reflexivity.
  - destruct (lookup_lt_is_Some_2 buf (Z.to_nat i)) as [b Hb]; [lia|].
    cbn [for_from].
    erewrite bind_val; last first.
    { erewrite bind_val; [|apply (buf_load_in buf i b); [lia|exact Hb]].
      reflexivity. }
    rewrite IH by lia.
    rewrite (drop_S _ _ _ Hb).
    replace (Z.to_nat (i + 1)) with (S (Z.to_nat i)) by lia.
    reflexivity.
Qed.

Lemma actions_app (t1 t2 : trace) : actions (t1 ++ t2) = actions t1 ++ actions t2.
Proof. apply List.filter_app. Qed.



(** A loop whose body only reads the buffer and only logs does the same. *)
Lemma log_loop (body : Z -> M unit) (buf : list byte) (count : nat) (i : Z) :
  (forall j, i <= j < i + Z.of_nat count ->
     exists t, body j buf = (t, buf, Val tt) /\ quiet t) ->
  exists t, for_from i count body buf = (t, buf, Val tt) /\ quiet t.
Proof.
  revert i. induction count as [|c IH]; intros i Hbody.
  - exists []. split; [reflexivity|constructor].
  - destruct (Hbody i) as (t1 & H1 & Q1); [lia|].
    destruct (IH (i + 1)) as (t2 & H2 & Q2).
    { intros j Hj. apply Hbody. lia. }
    exists (t1 ++ t2). split.
    + cbn [for_from]. erewrite bind_val by exact H1. rewrite H2. reflexivity.
    + apply Forall_app. split; assumption.
Qed.

(** [print_bytes] leaves the buffer alone and only prints. *)
Lemma print_bytes_run (buf : list byte) (len : Z) :
  0 <= len <= MTU_SIZE -> (Z.to_nat len <= length buf)%nat ->
  exists t, print_bytes len buf = (t, buf, Val tt) /\ quiet t.
Proof.
  intros Hlen Hbuf. unfold print_bytes, for_upto.
  edestruct (log_loop
    (fun i => (if (0 <? i) && (Z.rem i 16 =? 0)
               then emit (EvPrintf "\n" []) else mret tt);;
              b ← buf_load i;
              emit (EvPrintf "%02x " [PInt (Z.of_N (Byte.to_N b))]))
    buf (Z.to_nat len) 0) as (t & Ht & Qt).
  { intros j Hj.
    destruct (lookup_lt_is_Some_2 buf (Z.to_nat j)) as [b Hb]; [lia|].
    destruct ((0 <? j) && (Z.rem j 16 =? 0)).
    - eexists. split.
      + erewrite bind_val by reflexivity.
        erewrite bind_val by (apply (buf_load_in buf j b); [lia|exact Hb]).
        reflexivity.
      + repeat constructor.
    - eexists. split.
      + erewrite bind_val by reflexivity.
        erewrite bind_val by (apply (buf_load_in buf j b); [lia|exact Hb]).
        reflexivity.
      + repeat constructor. }
  exists (t ++ [EvPrintf "\n" []]). split.
  - erewrite bind_val by exact Ht. reflexivity.
  - apply Forall_app. split; [exact Qt|repeat constructor].
Qed.

Lemma get_data_body_in (inp : iter_input) (i : Z) (buf : list byte) :
  0 <= i < MTU_SIZE ->
  get_data_body inp i buf
  = ([EvRxPktGetData i i], <[Z.to_nat i := rx_data inp i]> buf, Val tt).
Proof.
  intros Hi. unfold get_data_body.
  rewrite to_uint16_small by lia.
  erewrite bind_val by reflexivity.
  rewrite buf_store_in by lia. reflexivity.
Qed.

Lemma get_data_body_out (inp : iter_input) (i : Z) (buf : list byte) :
  MTU_SIZE <= i ->
  get_data_body inp i buf
  = ([EvRxPktGetData i (to_uint16 i)], buf, Val tt).
Proof.
  intros Hi. unfold get_data_body.
  erewrite bind_val by reflexivity.
  rewrite buf_store_out by lia. reflexivity.
Qed.

(** While it stays inside the buffer, the copy loop asks for consecutive
    indices and overwrites the bytes it walks over. *)
Lemma copy_loop (inp : iter_input) (count : nat) (i : Z) (buf : list byte) :
  0 <= i -> i + Z.of_nat count <= MTU_SIZE ->
  (Z.to_nat i + count <= length buf)%nat ->
  for_from i count (get_data_body inp) buf
  = ((fun j => EvRxPktGetData j j) <$> seqZ i (Z.of_nat count),
     take (Z.to_nat i) buf ++ (rx_data inp <$> seqZ i (Z.of_nat count))
       ++ drop (Z.to_nat i + count) buf,
     Val tt).
Proof.
  revert i buf. induction count as [|c IH]; intros i buf Hi Hmtu Hlen.
  - cbn [for_from]. change (Z.of_nat 0) with 0. rewrite Nat.add_0_r.
    rewrite seqZ_nil by lia. cbn [fmap list_fmap app].
    rewrite take_drop. reflexivity.
  - cbn [for_from].
    erewrite bind_val by (apply get_data_body_in; lia).
    rewrite IH by (rewrite ?length_insert; lia).
    cbn [run_trace run_buffer run_result fst snd].
    rewrite seqZ_succ. cbn [fmap list_fmap app].
    replace (Z.to_nat (i + 1)) with (S (Z.to_nat i)) by lia.
    rewrite drop_insert_lt by lia.
    erewrite take_S_r by (apply list_lookup_insert_eq; lia).
    rewrite take_insert_ge by lia.
    rewrite <- app_assoc. cbn [app].
    replace (S (Z.to_nat i) + c)%nat with (Z.to_nat i + S c)%nat by lia.
    reflexivity.
Qed.

(** Past the end of the buffer the copy loop goes on making its calls,
    each with a pointer outside the array, and the array keeps what it
    holds. *)
Lemma copy_loop_past (inp : iter_input) (count : nat) (i : Z) (buf : list byte) :
  MTU_SIZE <= i ->
  for_from i count (get_data_body inp) buf
  = (get_data_events i (Z.of_nat count), buf, Val tt).
Proof.
  revert i. induction count as [|c IH]; intros i Hi.
  - reflexivity.
  - cbn [for_from].
    erewrite bind_val by (apply get_data_body_out; lia).
    rewrite IH by lia.
    cbn [run_trace run_buffer run_result fst snd].
    unfold get_data_events. rewrite (seqZ_cons i) by lia.
    replace (Z.succ i) with (i + 1) by lia.
    replace (Z.pred (Z.of_nat (S c))) with (Z.of_nat c) by lia.
    reflexivity.
Qed.

(** Asked to go past the end of the buffer, the copy loop fills the
    buffer to its last byte and makes the remaining calls with pointers
    past the end. *)
Lemma copy_loop_overrun (inp : iter_input) (count : nat) (i : Z) (buf : list byte) :
  0 <= i <= MTU_SIZE -> MTU_SIZE < i + Z.of_nat count ->
  length buf = Z.to_nat MTU_SIZE ->
  for_from i count (get_data_body inp) buf
  = (((fun j => EvRxPktGetData j j) <$> seqZ i (MTU_SIZE - i))
       ++ get_data_events MTU_SIZE (i + Z.of_nat count - MTU_SIZE),
     take (Z.to_nat i) buf ++ (rx_data inp <$> seqZ i (MTU_SIZE - i)),
     Val tt).
Proof.
  revert i buf. induction count as [|c IH]; intros i buf Hi Hmtu Hlen.
  - lia.
  - destruct (Z.eq_dec i MTU_SIZE) as [->|Hne].
    + rewrite copy_loop_past by lia.
      rewrite Z.sub_diag, seqZ_nil by lia. cbn [fmap list_fmap app].
      rewrite take_ge by lia. rewrite app_nil_r.
      replace (MTU_SIZE + Z.of_nat (S c) - MTU_SIZE) with (Z.of_nat (S c)) by lia.
      reflexivity.
    + cbn [for_from].
      erewrite bind_val by (apply get_data_body_in; lia).
      rewrite IH by (rewrite ?length_insert; lia).
      cbn [run_trace run_buffer run_result fst snd].
      rewrite (seqZ_cons i) by lia.
      replace (Z.succ i) with (i + 1) by lia.
      replace (Z.pred (MTU_SIZE - i)) with (MTU_SIZE - (i + 1)) by lia.
      replace (i + 1 + Z.of_nat c - MTU_SIZE)
        with (i + Z.of_nat (S c) - MTU_SIZE) by lia.
      cbn [fmap list_fmap app].
      replace (Z.to_nat (i + 1)) with (S (Z.to_nat i)) by lia.
      erewrite take_S_r by (apply list_lookup_insert_eq; lia).
      rewrite take_insert_ge by lia.
      rewrite <- app_assoc. reflexivity.
Qed.

(** ** The poll step *)

Lemma poll_ready (tap_fd : Z) (inp : iter_input) (buf : list byte) :
  0 <= sel_ret inp ->
  poll tap_fd inp buf = (poll_calls tap_fd, buf, Val tt).
Proof.
  intros H. unfold poll, poll_calls.
  destruct (Z.ltb_spec (sel_ret inp) 0); [lia|]. reflexivity.
Qed.

Lemma poll_transient (tap_fd : Z) (inp : iter_input) (buf : list byte) :
  sel_ret inp < 0 -> sel_errno inp = EINTR \/ sel_errno inp = EAGAIN ->
  poll tap_fd inp buf = (poll_calls tap_fd, buf, Stop Continue).
Proof.
  intros H He. unfold poll, poll_calls.
  destruct (Z.ltb_spec (sel_ret inp) 0); [|lia].
  destruct He as [-> | ->]; reflexivity.
Qed.

Lemma poll_fatal (tap_fd : Z) (inp : iter_input) (buf : list byte) :
  sel_ret inp < 0 -> sel_errno inp <> EINTR -> sel_errno inp <> EAGAIN ->
  poll tap_fd inp buf
  = (poll_calls tap_fd
       ++ [poll_failure_report tap_fd (sel_errno inp); EvClose tap_fd],
     buf, Stop (Returned (-5))).
Proof.
  intros H H1 H2. unfold poll, poll_calls, poll_failure_report.
  destruct (Z.ltb_spec (sel_ret inp) 0); [|lia].
  destruct (Z.eqb_spec (sel_errno inp) EINTR); [contradiction|].
  destruct (Z.eqb_spec (sel_errno inp) EAGAIN); [contradiction|].
  reflexivity.
Qed.

(** ** The outbound step *)

Lemma frame_read_length (data : list byte) :
  0 <= Z.of_nat (length (frame_read data)) <= MTU_SIZE.
Proof. unfold frame_read. rewrite length_take. unfold MTU_SIZE. lia. Qed.

Lemma frame_read_nil (data : list byte) : frame_read data = [] <-> data = [].
Proof.
  unfold frame_read, MTU_SIZE. destruct data; [tauto|].
  split; intros H; [|discriminate].
  change (Z.to_nat 1500) with (S 1499) in H. discriminate.
Qed.

Lemma fd_read_frame (fd : Z) (data buf : list byte) :
  wf_buffer buf ->
  fd_read fd MTU_SIZE (RdFrame data) buf
  = ([EvRead fd MTU_SIZE],
     frame_read data ++ drop (length (frame_read data)) buf,
     Val (Z.of_nat (length (frame_read data)))).
Proof.
  intros Hwf. pose proof (frame_read_length data) as Hlen.
  unfold fd_read, sys_read. fold (frame_read data).
  erewrite bind_val; last first.
  { erewrite bind_val by reflexivity.
    erewrite bind_val; last first.
    { unfold buf_fill. red in Hwf.
      destruct (Nat.leb_spec (length (frame_read data)) (length buf)); [|lia].
      reflexivity. }
    reflexivity. }
  cbn [run_trace run_buffer run_result fst snd app].
  destruct (Z.ltb_spec (Z.of_nat (length (frame_read data))) 0); [lia|].
  reflexivity.
Qed.

Lemma fd_read_fail (fd n : Z) (buf : list byte) :
  fd_read fd n RdFail buf
  = ([EvRead fd n; EvPerror "Reading data"], buf, Stop (Exited 1)).
Proof. reflexivity. Qed.

Lemma wf_buffer_fill (frame buf : list byte) :
  wf_buffer buf -> (length frame <= length buf)%nat ->
  wf_buffer (frame ++ drop (length frame) buf).
Proof.
  unfold wf_buffer. intros Hwf Hle. rewrite length_app, length_drop. lia.
Qed.

(** A frame of [n > 0] bytes: reported, dumped, pushed byte by byte in
    order, then committed. *)
Lemma outbound_frame (tap_fd : Z) (inp : iter_input) (buf data : list byte) :
  wf_buffer buf -> rd_result inp = RdFrame data -> data <> [] ->
  exists dump, quiet dump /\
    outbound tap_fd inp buf
    = ([EvRead tap_fd MTU_SIZE] ++ dump
         ++ (EvTxDataPush <$> frame_read data) ++ [EvTxTransferInit],
       frame_read data ++ drop (length (frame_read data)) buf,
       Val tt).
Proof.
  intros Hwf Hrd Hne.
  pose proof (frame_read_length data) as Hlen.
  assert (frame_read data <> []) as Hne' by (rewrite frame_read_nil; exact Hne).
  set (frame := frame_read data) in *.
  set (buf1 := frame ++ drop (length frame) buf).
  assert (wf_buffer buf1) as Hwf1.
  { apply wf_buffer_fill; [exact Hwf|]. red in Hwf. lia. }
  assert (0 < Z.of_nat (length frame)) as Hpos.
  { destruct frame; [congruence|]. cbn [length]. lia. }
  destruct (print_bytes_run buf1 (Z.of_nat (length frame))) as (tp & Htp & Qtp).
  { lia. } { red in Hwf1. lia. }
  exists (EvPrintf "HOST: TAP-RD: nbytes=%03d\n" [PInt (Z.of_nat (length frame))]
            :: tp).
  split; [constructor; [reflexivity|exact Qtp]|].
  unfold outbound. rewrite Hrd.
  erewrite bind_val by (apply fd_read_frame; exact Hwf).
  fold frame buf1.
  destruct (Z.eqb_spec (Z.of_nat (length frame)) 0); [lia|].
  cbn [negb].
  erewrite bind_val by reflexivity.
  rewrite to_uint32_small by lia.
  erewrite bind_val by exact Htp.
  unfold for_upto. rewrite Nat2Z.id.
  erewrite bind_val; last first.
  { apply push_loop; [lia|lia|]. red in Hwf1. lia. }
  cbn [run_trace run_buffer run_result fst snd emit].
  change (Z.to_nat 0) with 0%nat. rewrite drop_0.
  unfold buf1 at 1. rewrite take_app_length.
  cbn [app]. rewrite <- ?app_assoc. reflexivity.
Qed.

(** A read of zero bytes: reported, nothing else. *)
Lemma outbound_empty (tap_fd : Z) (inp : iter_input) (buf : list byte) :
  wf_buffer buf -> rd_result inp = RdFrame [] ->
  outbound tap_fd inp buf
  = ([EvRead tap_fd MTU_SIZE; bad_packet_report 0], buf, Val tt).
Proof.
  intros Hwf Hrd. unfold outbound. rewrite Hrd.
  erewrite bind_val by (apply fd_read_frame; exact Hwf).
  reflexivity.
Qed.

(** A failed read: [fd_read] ends the process. *)
Lemma outbound_fail (tap_fd : Z) (inp : iter_input) (buf : list byte) :
  rd_result inp = RdFail ->
  outbound tap_fd inp buf
  = ([EvRead tap_fd MTU_SIZE; EvPerror "Reading data"], buf, Stop (Exited 1)).
Proof. intros Hrd. unfold outbound. rewrite Hrd. reflexivity. Qed.

(** ** The inbound step *)

Lemma rx_frame_length (inp : iter_input) (len : Z) :
  length (rx_frame inp len) = Z.to_nat len.
Proof. unfold rx_frame. rewrite length_fmap. apply length_seqZ. Qed.

Lemma write_call_in (fd n : Z) (buf : list byte) :
  wf_buffer buf -> 0 <= n <= MTU_SIZE ->
  write_call fd n buf = EvWrite fd (take (Z.to_nat n) buf).
Proof.
  intros Hwf Hn. red in Hwf. unfold write_call, count_fits.
  destruct (Z.leb_spec 0 n); [|lia].
  destruct (Z.leb_spec n MTU_SIZE); [|lia].
  destruct (Nat.leb_spec (Z.to_nat n) (length buf)); [|lia].
  reflexivity.
Qed.

Lemma write_call_out (fd n : Z) (buf : list byte) :
  n < 0 \/ MTU_SIZE < n ->
  write_call fd n buf = EvWriteOutside fd n.
Proof.
  intros Hn. unfold write_call, count_fits.
  destruct (Z.leb_spec 0 n); destruct (Z.leb_spec n MTU_SIZE);
    try lia; reflexivity.
Qed.

(** [fd_write] makes the call whatever the count, and ends the process
    when the answer is negative. *)
Lemma fd_write_run (fd n r : Z) (buf : list byte) :
  fd_write fd n r buf
  = (write_call fd n buf
       :: (if r <? 0 then [EvPerror "Writing data"] else []),
     buf,
     if r <? 0 then Stop (Exited 1) else Val r).
Proof.
  unfold fd_write.
  erewrite bind_val by (unfold sys_write; reflexivity).
  destruct (r <? 0); reflexivity.
Qed.

Lemma fd_write_done (fd n r : Z) (buf : list byte) :
  wf_buffer buf -> 0 <= n <= MTU_SIZE -> 0 <= r ->
  fd_write fd n r buf = ([EvWrite fd (take (Z.to_nat n) buf)], buf, Val r).
Proof.
  intros Hwf Hn Hr. rewrite fd_write_run, write_call_in by assumption.
  destruct (Z.ltb_spec r 0); [lia|]. reflexivity.
Qed.

Lemma fd_write_fail (fd n r : Z) (buf : list byte) :
  wf_buffer buf -> 0 <= n <= MTU_SIZE -> r < 0 ->
  fd_write fd n r buf
  = ([EvWrite fd (take (Z.to_nat n) buf); EvPerror "Writing data"],
     buf, Stop (Exited 1)).
Proof.
  intros Hwf Hn Hr. rewrite fd_write_run, write_call_in by assumption.
  destruct (Z.ltb_spec r 0); [|lia]. reflexivity.
Qed.

(** Nothing queued: only the query. *)
Lemma inbound_none (tap_fd : Z) (inp : iter_input) (buf : list byte) :
  rx_npkt inp <= 0 ->
  inbound tap_fd inp buf = ([EvRxPktValid], buf, Val tt).
Proof.
  intros H. unfold inbound.
  destruct (Z.ltb_spec 0 (rx_npkt inp)); [lia|]. reflexivity.
Qed.

(** A queued frame that fits the buffer: pulled, copied byte by byte at
    increasing indices, and handed to [write] whole. *)
Lemma inbound_frame (tap_fd : Z) (inp : iter_input) (buf : list byte) :
  wf_buffer buf -> 0 < rx_npkt inp -> 0 <= rx_pkt_len inp <= MTU_SIZE ->
  inbound tap_fd inp buf
  = ([EvRxPktValid; EvRxPktPull; send_report (rx_pkt_len inp)]
       ++ ((fun j => EvRxPktGetData j j) <$> seqZ 0 (rx_pkt_len inp))
       ++ EvWrite tap_fd (rx_frame inp (rx_pkt_len inp))
       :: (if wr_ret inp <? 0 then [EvPerror "Writing data"] else []),
     rx_frame inp (rx_pkt_len inp) ++ drop (Z.to_nat (rx_pkt_len inp)) buf,
     if wr_ret inp <? 0 then Stop (Exited 1) else Val tt).
Proof.
  intros Hwf Hn Hlen. pose proof Hwf as Hwf'. red in Hwf'.
  unfold inbound, send_report.
  destruct (Z.ltb_spec 0 (rx_npkt inp)); [|lia].
  set (L := rx_pkt_len inp) in *.
  erewrite bind_val by reflexivity.
  erewrite bind_val by reflexivity.
  erewrite bind_val by reflexivity.
  erewrite bind_val; last first.
  { unfold for_upto. apply copy_loop; lia. }
  rewrite Z2Nat.id by lia.
  change (Z.to_nat 0) with 0%nat. rewrite take_0. cbn [app Nat.add].
  fold (rx_frame inp L).
  set (buf1 := rx_frame inp L ++ drop (Z.to_nat L) buf).
  assert (wf_buffer buf1) as Hwf1.
  { unfold buf1, wf_buffer. rewrite length_app, rx_frame_length, length_drop. lia. }
  assert (take (Z.to_nat L) buf1 = rx_frame inp L) as Htake.
  { unfold buf1. apply take_app_length'. rewrite rx_frame_length. lia. }
  destruct (Z.ltb_spec (wr_ret inp) 0).
  - erewrite bind_stop by (apply fd_write_fail; [exact Hwf1|lia|lia]).
    rewrite Htake. reflexivity.
  - erewrite bind_val by (apply fd_write_done; [exact Hwf1|lia|lia]).
    rewrite Htake. cbn [run_trace run_buffer run_result fst snd].
    rewrite ?app_nil_r. reflexivity.
Qed.

(** The step from the copy loop to the end of the pass: [fd_write] with
    the pulled length, whatever it is. *)
Lemma inbound_write (tap_fd : Z) (inp : iter_input) (buf : list byte) :
  (fd_write tap_fd (rx_pkt_len inp) (wr_ret inp);; mret tt) buf
  = (write_call tap_fd (rx_pkt_len inp) buf
       :: (if wr_ret inp <? 0 then [EvPerror "Writing data"] else []),
     buf,
     if wr_ret inp <? 0 then Stop (Exited 1) else Val tt).
Proof.
  destruct (Z.ltb_spec (wr_ret inp) 0) as [Hw|Hw].
  - erewrite bind_stop; [reflexivity|].
    rewrite fd_write_run. destruct (Z.ltb_spec (wr_ret inp) 0); [|lia].
    reflexivity.
  - erewrite bind_val; last first.
    { rewrite fd_write_run. destruct (Z.ltb_spec (wr_ret inp) 0); [lia|].
      reflexivity. }
    reflexivity.
Qed.

(** A queued frame longer than the buffer: the copy loop fills the buffer,
    goes on with pointers past its end, and [write] is then asked for more
    bytes than the buffer holds. *)
Lemma inbound_oversize (tap_fd : Z) (inp : iter_input) (buf : list byte) :
  wf_buffer buf -> 0 < rx_npkt inp -> MTU_SIZE < rx_pkt_len inp ->
  inbound tap_fd inp buf
  = ([EvRxPktValid; EvRxPktPull; send_report (rx_pkt_len inp)]
       ++ ((fun j => EvRxPktGetData j j) <$> seqZ 0 MTU_SIZE)
       ++ get_data_events MTU_SIZE (rx_pkt_len inp - MTU_SIZE)
       ++ EvWriteOutside tap_fd (rx_pkt_len inp)
       :: (if wr_ret inp <? 0 then [EvPerror "Writing data"] else []),
     rx_frame inp MTU_SIZE,
     if wr_ret inp <? 0 then Stop (Exited 1) else Val tt).
Proof.
  intros Hwf Hn Hlen. red in Hwf.
  unfold inbound, send_report.
  destruct (Z.ltb_spec 0 (rx_npkt inp)); [|lia].
  erewrite bind_val by reflexivity.
  erewrite bind_val by reflexivity.
  erewrite bind_val by reflexivity.
  erewrite bind_val; last first.
  { unfold for_upto. apply copy_loop_overrun; unfold MTU_SIZE in *; lia. }
  rewrite inbound_write. rewrite write_call_out by lia.
  rewrite Z.sub_0_r. change (Z.to_nat 0) with 0%nat. rewrite take_0.
  replace (0 + Z.of_nat (Z.to_nat (rx_pkt_len inp)) - MTU_SIZE)
    with (rx_pkt_len inp - MTU_SIZE) by (unfold MTU_SIZE in *; lia).
  cbn [run_trace run_buffer run_result fst snd app].
  rewrite <- !app_assoc. reflexivity.
Qed.

(** A negative length: no byte is copied, and [write] is called with the
    negative count. *)
Lemma inbound_negative (tap_fd : Z) (inp : iter_input) (buf : list byte) :
  0 < rx_npkt inp -> rx_pkt_len inp < 0 ->
  inbound tap_fd inp buf
  = ([EvRxPktValid; EvRxPktPull; send_report (rx_pkt_len inp)]
       ++ EvWriteOutside tap_fd (rx_pkt_len inp)
       :: (if wr_ret inp <? 0 then [EvPerror "Writing data"] else []),
     buf,
     if wr_ret inp <? 0 then Stop (Exited 1) else Val tt).
Proof.
  intros Hn Hlen. unfold inbound, send_report.
  destruct (Z.ltb_spec 0 (rx_npkt inp)); [|lia].
  erewrite bind_val by reflexivity.
  erewrite bind_val by reflexivity.
  erewrite bind_val by reflexivity.
  erewrite bind_val; last first.
  { unfold for_upto. rewrite Z2Nat.nonpos by lia. reflexivity. }
  rewrite inbound_write. rewrite write_call_out by lia.
  reflexivity.
Qed.

Lemma get_data_events_small (from count : Z) :
  0 <= from -> from + count <= 65536 ->
  get_data_events from count = (fun j => EvRxPktGetData j j) <$> seqZ from count.
Proof.
  intros Hfrom Hcount. unfold get_data_events.
  apply list_fmap_ext. intros k j Hj.
  apply lookup_seqZ in Hj.
  unfold to_uint16. rewrite Z.mod_small by lia. reflexivity.
Qed.

Lemma get_data_events_app (from c1 c2 : Z) :
  0 <= c1 -> 0 <= c2 ->
  get_data_events from (c1 + c2)
  = get_data_events from c1 ++ get_data_events (from + c1) c2.
Proof.
  intros H1 H2. unfold get_data_events.
  rewrite seqZ_app by lia. apply fmap_app.
Qed.

(** The inbound step with a frame queued, for every length the pull can
    answer: the pull, one copy call for each position below the length,
    and then the write, with the length as its count; the pass ends there,
    in [exit (1)] if the write failed. *)
Lemma inbound_pulled (tap_fd : Z) (inp : iter_input) (buf : list byte) :
  wf_buffer buf -> 0 < rx_npkt inp ->
  let r := inbound tap_fd inp buf in
  run_trace r
  = [EvRxPktValid; EvRxPktPull; send_report (rx_pkt_len inp)]
      ++ get_data_events 0 (rx_pkt_len inp)
      ++ write_call tap_fd (rx_pkt_len inp) (run_buffer r)
      :: (if wr_ret inp <? 0 then [EvPerror "Writing data"] else [])
  /\ wf_buffer (run_buffer r)
  /\ run_result r = (if wr_ret inp <? 0 then Stop (Exited 1) else Val tt).
Proof.
  intros Hwf Hn r. unfold r. pose proof Hwf as Hwf'. red in Hwf'.
  destruct (Z.lt_ge_cases (rx_pkt_len inp) 0) as [Hlt | Hge];
    [|destruct (Z.le_gt_cases (rx_pkt_len inp) MTU_SIZE) as [Hle | Hgt]].
  - rewrite inbound_negative by assumption.
    cbn [run_trace run_buffer run_result fst snd].
    unfold get_data_events. rewrite seqZ_nil by lia.
    rewrite write_call_out by lia.
    split; [reflexivity|]. split; [exact Hwf|reflexivity].
  - rewrite inbound_frame by (first [assumption | lia]).
    cbn [run_trace run_buffer run_result fst snd].
    assert (wf_buffer (rx_frame inp (rx_pkt_len inp)
                         ++ drop (Z.to_nat (rx_pkt_len inp)) buf)) as Hwf1.
    { unfold wf_buffer. rewrite length_app, rx_frame_length, length_drop.
      unfold MTU_SIZE in *. lia. }
    rewrite write_call_in by (first [assumption | lia]).
    rewrite take_app_length' by (rewrite rx_frame_length; reflexivity).
    rewrite get_data_events_small by (unfold MTU_SIZE in *; lia).
    split; [reflexivity|]. split; [exact Hwf1|reflexivity].
  - rewrite inbound_oversize by assumption.
    cbn [run_trace run_buffer run_result fst snd].
    rewrite write_call_out by lia.
    assert (get_data_events 0 (rx_pkt_len inp)
            = ((fun j => EvRxPktGetData j j) <$> seqZ 0 MTU_SIZE)
                ++ get_data_events MTU_SIZE (rx_pkt_len inp - MTU_SIZE)) as ->.
    { replace (rx_pkt_len inp)
        with (MTU_SIZE + (rx_pkt_len inp - MTU_SIZE)) at 1 by lia.
      rewrite get_data_events_app by (unfold MTU_SIZE in *; lia).
      rewrite (get_data_events_small 0 MTU_SIZE) by (unfold MTU_SIZE; lia).
      reflexivity. }
    rewrite <- !app_assoc.
    split; [reflexivity|]. split; [|reflexivity].
    unfold wf_buffer. rewrite rx_frame_length. reflexivity.
Qed.

(** ** Invariants of traces and stops *)

Section Within.
Variable P : event -> Prop.
Variable R : stop -> Prop.

Lemma within_ret {A} (a : A) : within P R (mret a).
Proof. intros buf. split; [constructor|discriminate]. Qed.

Lemma within_emit (e : event) : P e -> within P R (emit e).
Proof. intros He buf. split; [repeat constructor; exact He|discriminate]. Qed.

Lemma within_halt {A} (s : stop) : R s -> within P R (@halt A s).
Proof.
  intros Hs buf. split; [constructor|].
  intros s' [= <-]. exact Hs.
Qed.

Lemma within_bind {A B} (m : M A) (k : A -> M B) :
  within P R m -> (forall a, within P R (k a)) -> within P R (m ≫= k).
Proof.
  intros Hm Hk buf. destruct (Hm buf) as [Ht Hr].
  unfold mbind, M_bind.
  destruct (m buf) as [[t1 buf1] [a|s]]; cbn in *.
  - destruct (Hk a buf1) as [Ht2 Hr2].
    destruct (k a buf1) as [[t2 buf2] r2]; cbn in *.
    split; [apply Forall_app; split; assumption|exact Hr2].
  - split; [exact Ht|]. intros s' [= <-]. apply Hr. reflexivity.
Qed.

Lemma within_for (body : Z -> M unit) (count : nat) (i : Z) :
  (forall j, within P R (body j)) -> within P R (for_from i count body).
Proof.
  intros Hbody. revert i. induction count as [|c IH]; intros i.
  - apply within_ret.
  - cbn [for_from]. apply within_bind; [apply Hbody|intros _; apply IH].
Qed.

Hypothesis R_oob : R OutOfBounds.

Lemma within_buf_load (i : Z) : within P R (buf_load i).
Proof.
  intros buf. unfold buf_load.
  destruct ((0 <=? i) && (i <? MTU_SIZE)); [destruct (buf !! Z.to_nat i)|];
    (split; [constructor|]); cbn; intros s [= <-]; exact R_oob.
Qed.

Lemma within_buf_store (i : Z) (b : byte) : within P R (buf_store i b).
Proof.
  intros buf. unfold buf_store.
  destruct ((0 <=? i) && (i <? MTU_SIZE));
    (split; [constructor|]); cbn; discriminate.
Qed.

Lemma within_buf_fill (data : list byte) : within P R (buf_fill data).
Proof.
  intros buf. unfold buf_fill.
  destruct (length data <=? length buf)%nat;
    (split; [constructor|]); cbn; intros s [= <-]; exact R_oob.
Qed.

Hypothesis P_log : forall e, is_log e = true -> P e.
Hypothesis R_exit : R (Exited 1).

Lemma within_print_bytes (len : Z) : within P R (print_bytes len).
Proof.
  unfold print_bytes, for_upto.
  apply within_bind; [|intros _; apply within_emit, P_log; reflexivity].
  apply within_for. intros j.
  apply within_bind.
  - destruct ((0 <? j) && (Z.rem j 16 =? 0));
      [apply within_emit, P_log; reflexivity|apply within_ret].
  - intros _. apply within_bind; [apply within_buf_load|].
    intros b. apply within_emit, P_log. reflexivity.
Qed.

Section Outbound.
Hypothesis P_read : forall fd n, P (EvRead fd n).
Hypothesis P_tx : forall e, is_tx e = true -> P e.

Lemma within_fd_read (fd n : Z) (r : read_result) : within P R (fd_read fd n r).
Proof.
  unfold fd_read, sys_read.
  apply within_bind.
  - apply within_bind; [apply within_emit, P_read|intros _].
    destruct r; [apply within_ret|].
    apply within_bind; [apply within_buf_fill|intros _; apply within_ret].
  - intros nread. destruct (nread <? 0); [|apply within_ret].
    apply within_bind; [apply within_emit, P_log; reflexivity|intros _].
    apply within_halt, R_exit.
Qed.

Lemma within_outbound (tap_fd : Z) (inp : iter_input) :
  within P R (outbound tap_fd inp).
Proof.
  unfold outbound. apply within_bind; [apply within_fd_read|intros nbytes].
  destruct (negb (nbytes =? 0)); [|apply within_emit, P_log; reflexivity].
  apply within_bind; [apply within_emit, P_log; reflexivity|intros _].
  apply within_bind; [apply within_print_bytes|intros _].
  apply within_bind; [|intros _; apply within_emit, P_tx; reflexivity].
  apply within_for. intros j.
  apply within_bind; [apply within_buf_load|intros b].
  apply within_emit, P_tx. reflexivity.
Qed.
End Outbound.

Section Inbound.
Hypothesis P_rx : forall e, is_rx e = true -> P e.
Hypothesis P_write : forall e, is_write e = true -> P e.

Lemma within_sys_write (fd n r : Z) : within P R (sys_write fd n r).
Proof.
  intros buf. unfold sys_write. split; [|discriminate].
  repeat constructor. apply P_write.
  unfold write_call. destruct (count_fits n buf); reflexivity.
Qed.

Lemma within_fd_write (fd n r : Z) : within P R (fd_write fd n r).
Proof.
  unfold fd_write.
  apply within_bind.
  - apply within_sys_write.
  - intros nwrite. destruct (nwrite <? 0); [|apply within_ret].
    apply within_bind; [apply within_emit, P_log; reflexivity|intros _].
    apply within_halt, R_exit.
Qed.

Lemma within_inbound (tap_fd : Z) (inp : iter_input) :
  within P R (inbound tap_fd inp).
Proof.
  unfold inbound.
  apply within_bind; [apply within_emit, P_rx; reflexivity|intros _].
  destruct (0 <? rx_npkt inp); [|apply within_ret].
  apply within_bind; [apply within_emit, P_rx; reflexivity|intros _].
  apply within_bind; [apply within_emit, P_log; reflexivity|intros _].
  apply within_bind.
  - apply within_for. intros j. unfold get_data_body.
    apply within_bind; [apply within_emit, P_rx; reflexivity|intros _].
    apply within_buf_store.
  - intros _. apply within_bind; [apply within_fd_write|intros _].
    apply within_ret.
Qed.
End Inbound.

End Within.

Lemma filter_none {X} (f : X -> bool) (l : list X) :
  Forall (fun x => f x = false) l -> List.filter f l = [].
Proof.
  induction 1 as [|x l Hx _ IH]; [reflexivity|].
  cbn. rewrite Hx. exact IH.
Qed.

Lemma filter_all {X} (f : X -> bool) (l : list X) :
  Forall (fun x => f x = true) l -> List.filter f l = l.
Proof.
  induction 1 as [|x l Hx _ IH]; [reflexivity|].
  cbn. rewrite Hx. f_equal. exact IH.
Qed.

Lemma omap_none {X Y} (f : X -> option Y) (l : list X) :
  Forall (fun x => f x = None) l -> omap f l = [].
Proof.
  induction 1 as [|x l Hx _ IH]; [reflexivity|].
  cbn. rewrite Hx. exact IH.
Qed.

Lemma omap_app' {X Y} (f : X -> option Y) (l1 l2 : list X) :
  omap f (l1 ++ l2) = omap f l1 ++ omap f l2.
Proof.
  induction l1 as [|x l1 IH]; [reflexivity|].
  cbn. destruct (f x); cbn; rewrite IH; reflexivity.
Qed.

(** * Outbound transfers *)

Lemma log_not_tx (e : event) : is_log e = true -> is_tx e = false.
Proof. destruct e; cbn; congruence. Qed.

Lemma rx_not_tx (e : event) : is_rx e = true -> is_tx e = false.
Proof. destruct e; cbn; congruence. Qed.

Lemma write_not_tx (e : event) : is_write e = true -> is_tx e = false.
Proof. destruct e; cbn; congruence. Qed.

Lemma quiet_no_tx (t : trace) : quiet t -> List.filter is_tx t = [].
Proof.
  intros Q. apply filter_none. eapply Forall_impl; [exact Q|].
  apply log_not_tx.
Qed.

(** The inbound step never touches the outbound side of the mailbox. *)
Lemma inbound_no_tx (tap_fd : Z) (inp : iter_input) (buf : list byte) :
  List.filter is_tx (run_trace (inbound tap_fd inp buf)) = [].
Proof.
  apply filter_none.
  apply (within_inbound (fun e => is_tx e = false) (fun _ => True));
    auto using log_not_tx, rx_not_tx, write_not_tx.
Qed.

Lemma pushes_are_tx (frame : list byte) :
  List.filter is_tx (EvTxDataPush <$> frame) = EvTxDataPush <$> frame.
Proof.
  apply filter_all. apply Forall_fmap. apply Forall_true. reflexivity.
Qed.

(** C3.  In a pass that reads a frame of [n > 0] bytes from the host
    transport, the calls into the outbound side of the mailbox are exactly
    one [host_tx_data_push] per byte of the frame, in the order of the
    bytes, followed by one [host_tx_transfer_init]; in a pass that reads no
    such frame (the poll failed, the descriptor is not readable, the read
    failed or returned nothing) there is no call into the outbound side
    at all. *)
Theorem tx_push_every_byte_then_commit
    (tap_fd : Z) (inp : iter_input) (buf : list byte) :
  wf_buffer buf ->
  (forall data,
     0 <= sel_ret inp -> sel_isset inp = true ->
     rd_result inp = RdFrame data -> data <> [] ->
     List.filter is_tx (run_trace (loop_body tap_fd inp buf))
     = (EvTxDataPush <$> frame_read data) ++ [EvTxTransferInit])
  /\
  (sel_ret inp < 0 \/ sel_isset inp = false \/
   rd_result inp = RdFail \/ rd_result inp = RdFrame [] ->
   List.filter is_tx (run_trace (loop_body tap_fd inp buf)) = []).
Proof.
  intros Hwf. split.
  - intros data Hsel Hset Hrd Hne.
    destruct (outbound_frame tap_fd inp buf data Hwf Hrd Hne) as (dump & Qd & Hout).
    unfold loop_body. rewrite Hset.
    erewrite bind_val by (apply poll_ready; exact Hsel).
    erewrite bind_val by exact Hout.
    cbn [run_trace run_buffer run_result fst snd].
    rewrite !List.filter_app.
    rewrite inbound_no_tx, (quiet_no_tx dump Qd), pushes_are_tx.
    cbn. rewrite app_nil_r. reflexivity.
  - intros Hno. unfold loop_body.
    destruct (Z.lt_ge_cases (sel_ret inp) 0) as [Hneg | Hsel].
    { destruct (Z.eq_dec (sel_errno inp) EINTR) as [He | He];
        [|destruct (Z.eq_dec (sel_errno inp) EAGAIN) as [He' | He']].
      - erewrite bind_stop by (apply poll_transient; auto). reflexivity.
      - erewrite bind_stop by (apply poll_transient; auto). reflexivity.
      - erewrite bind_stop by (apply poll_fatal; auto). reflexivity. }
    erewrite bind_val by (apply poll_ready; exact Hsel).
    cbn [run_trace run_buffer run_result fst snd].
    destruct Hno as [Hneg | [Hset | [Hrd | Hrd]]]; [lia| | |].
    + rewrite Hset. erewrite bind_val by reflexivity.
      cbn [run_trace run_buffer run_result fst snd].
      rewrite !List.filter_app, inbound_no_tx. reflexivity.
    + destruct (sel_isset inp).
      * erewrite bind_stop by (apply outbound_fail; exact Hrd). reflexivity.
      * erewrite bind_val by reflexivity.
        cbn [run_trace run_buffer run_result fst snd].
        rewrite !List.filter_app, inbound_no_tx. reflexivity.
    + destruct (sel_isset inp).
      * erewrite bind_val by (apply outbound_empty; assumption).
        cbn [run_trace run_buffer run_result fst snd].
        rewrite !List.filter_app, inbound_no_tx. reflexivity.
      * erewrite bind_val by reflexivity.
        cbn [run_trace run_buffer run_result fst snd].
        rewrite !List.filter_app, inbound_no_tx. reflexivity.
Qed.

(** * A pass whose poll succeeds *)

(** With nothing to read the pass goes straight to the inbound step. *)
Lemma loop_body_idle (tap_fd : Z) (inp : iter_input) (buf : list byte) :
  0 <= sel_ret inp -> sel_isset inp = false ->
  loop_body tap_fd inp buf
  = (poll_calls tap_fd ++ run_trace (inbound tap_fd inp buf),
     run_buffer (inbound tap_fd inp buf),
     run_result (inbound tap_fd inp buf)).
Proof.
  intros Hsel Hset. unfold loop_body. rewrite Hset.
  erewrite bind_val by (apply poll_ready; exact Hsel).
  erewrite bind_val by reflexivity. reflexivity.
Qed.

(** A read of zero bytes is reported and the pass goes on to the inbound
    step with the buffer as it was. *)
Lemma loop_body_empty_read (tap_fd : Z) (inp : iter_input) (buf : list byte) :
  wf_buffer buf -> 0 <= sel_ret inp -> sel_isset inp = true ->
  rd_result inp = RdFrame [] ->
  loop_body tap_fd inp buf
  = (poll_calls tap_fd ++ [EvRead tap_fd MTU_SIZE; bad_packet_report 0]
       ++ run_trace (inbound tap_fd inp buf),
     run_buffer (inbound tap_fd inp buf),
     run_result (inbound tap_fd inp buf)).
Proof.
  intros Hwf Hsel Hset Hrd. unfold loop_body. rewrite Hset.
  erewrite bind_val by (apply poll_ready; exact Hsel).
  erewrite bind_val by (apply outbound_empty; assumption). reflexivity.
Qed.

(** A failed read ends the process inside [fd_read]. *)
Lemma loop_body_failed_read (tap_fd : Z) (inp : iter_input) (buf : list byte) :
  0 <= sel_ret inp -> sel_isset inp = true -> rd_result inp = RdFail ->
  loop_body tap_fd inp buf
  = (poll_calls tap_fd ++ [EvRead tap_fd MTU_SIZE; EvPerror "Reading data"],
     buf, Stop (Exited 1)).
Proof.
  intros Hsel Hset Hrd. unfold loop_body. rewrite Hset.
  erewrite bind_val by (apply poll_ready; exact Hsel).
  erewrite bind_stop by (apply outbound_fail; exact Hrd). reflexivity.
Qed.

(** A frame is forwarded and the pass goes on to the inbound step with
    the frame still at the start of the buffer. *)
Lemma loop_body_frame (tap_fd : Z) (inp : iter_input) (buf data : list byte) :
  wf_buffer buf -> 0 <= sel_ret inp -> sel_isset inp = true ->
  rd_result inp = RdFrame data -> data <> [] ->
  let buf1 := frame_read data ++ drop (length (frame_read data)) buf in
  exists dump, quiet dump /\
    loop_body tap_fd inp buf
    = (poll_calls tap_fd
         ++ ([EvRead tap_fd MTU_SIZE] ++ dump
               ++ (EvTxDataPush <$> frame_read data) ++ [EvTxTransferInit])
         ++ run_trace (inbound tap_fd inp buf1),
       run_buffer (inbound tap_fd inp buf1),
       run_result (inbound tap_fd inp buf1)).
Proof.
  intros Hwf Hsel Hset Hrd Hne buf1.
  destruct (outbound_frame tap_fd inp buf data Hwf Hrd Hne) as (dump & Qd & Hout).
  exists dump. split; [exact Qd|].
  unfold loop_body. rewrite Hset.
  erewrite bind_val by (apply poll_ready; exact Hsel).
  erewrite bind_val by exact Hout. reflexivity.
Qed.

Lemma wf_buffer_frame_read (data buf : list byte) :
  wf_buffer buf ->
  wf_buffer (frame_read data ++ drop (length (frame_read data)) buf).
Proof.
  intros Hwf. apply wf_buffer_fill; [exact Hwf|].
  pose proof (frame_read_length data). red in Hwf. lia.
Qed.

(** * Zero-length and failed reads *)

(** C2, as the code has it.  A read of zero bytes in a pass whose poll
    succeeded is logged as a bad packet, nothing is pushed to the mailbox,
    and the pass continues with the inbound step on an unchanged buffer.  A
    read that fails (a negative result) is not skipped: [fd_read] reports
    it and ends the process with [exit (1)], nothing is pushed to the
    mailbox and the inbound step is not reached. *)
Theorem zero_read_skipped_failed_read_fatal
    (tap_fd : Z) (inp : iter_input) (buf : list byte) :
  wf_buffer buf -> 0 <= sel_ret inp -> sel_isset inp = true ->
  (rd_result inp = RdFrame [] ->
     loop_body tap_fd inp buf
     = (poll_calls tap_fd ++ [EvRead tap_fd MTU_SIZE; bad_packet_report 0]
          ++ run_trace (inbound tap_fd inp buf),
        run_buffer (inbound tap_fd inp buf),
        run_result (inbound tap_fd inp buf))
     /\ List.filter is_tx (run_trace (loop_body tap_fd inp buf)) = [])
  /\
  (rd_result inp = RdFail ->
     loop_body tap_fd inp buf
     = (poll_calls tap_fd ++ [EvRead tap_fd MTU_SIZE; EvPerror "Reading data"],
        buf, Stop (Exited 1))).
Proof.
  intros Hwf Hsel Hset. split.
  - intros Hrd. split.
    + apply loop_body_empty_read; assumption.
    + rewrite loop_body_empty_read by assumption.
      cbn [run_trace fst snd].
      rewrite !List.filter_app, inbound_no_tx. reflexivity.
  - intros Hrd. apply loop_body_failed_read; assumption.
Qed.

(** * Inbound transfers *)

Lemma get_data_calls_inbound (len : Z) :
  List.filter is_inbound_call (get_data_calls len) = get_data_calls len.
Proof.
  apply filter_all. apply Forall_fmap. apply Forall_true. reflexivity.
Qed.

Lemma get_data_calls_indices (len : Z) :
  get_data_indices (get_data_calls len) = seqZ 0 len.
Proof.
  unfold get_data_indices, get_data_calls.
  induction (seqZ 0 len) as [|j l IH]; [reflexivity|].
  cbn. f_equal. exact IH.
Qed.

Lemma quiet_no_inbound (t : trace) :
  quiet t -> List.filter is_inbound_call t = [].
Proof.
  intros Q. apply filter_none. eapply Forall_impl; [exact Q|].
  intros e. destruct e; cbn; congruence.
Qed.

Lemma pushes_no_inbound (frame : list byte) :
  List.filter is_inbound_call (EvTxDataPush <$> frame) = [].
Proof.
  apply filter_none. apply Forall_fmap. apply Forall_true. reflexivity.
Qed.


(** The inbound calls of the inbound step for a frame that fits. *)
Lemma inbound_frame_calls (tap_fd : Z) (inp : iter_input) (buf : list byte) :
  wf_buffer buf -> 0 < rx_npkt inp -> 0 <= rx_pkt_len inp <= MTU_SIZE ->
  List.filter is_inbound_call (run_trace (inbound tap_fd inp buf))
  = [EvRxPktValid; EvRxPktPull] ++ get_data_calls (rx_pkt_len inp)
      ++ [EvWrite tap_fd (rx_frame inp (rx_pkt_len inp))].
Proof.
  intros Hwf Hn Hlen. rewrite inbound_frame by assumption.
  cbn [run_trace fst snd]. fold (get_data_calls (rx_pkt_len inp)).
  rewrite !List.filter_app, get_data_calls_inbound.
  destruct (wr_ret inp <? 0); reflexivity.
Qed.

(** The part of a pass that precedes the inbound step, when the pass gets
    that far, makes no inbound call and leaves a buffer of the right
    size. *)
Lemma loop_body_reaches_inbound (tap_fd : Z) (inp : iter_input) (buf : list byte) :
  wf_buffer buf -> 0 <= sel_ret inp ->
  (sel_isset inp = true -> rd_result inp <> RdFail) ->
  exists before buf1,
    wf_buffer buf1 /\
    List.filter is_inbound_call before = [] /\
    loop_body tap_fd inp buf
    = (before ++ run_trace (inbound tap_fd inp buf1),
       run_buffer (inbound tap_fd inp buf1),
       run_result (inbound tap_fd inp buf1)).
Proof.
  intros Hwf Hsel Hrd.
  destruct (sel_isset inp) eqn:Hset.
  - destruct (rd_result inp) as [|data] eqn:Hres;
      [exfalso; apply Hrd; reflexivity|].
    destruct data as [|b data].
    + exists (poll_calls tap_fd ++ [EvRead tap_fd MTU_SIZE; bad_packet_report 0]), buf.
      split; [exact Hwf|]. split; [reflexivity|].
      rewrite <- app_assoc. apply loop_body_empty_read; assumption.
    + destruct (loop_body_frame tap_fd inp buf (b :: data)) as (dump & Qd & Hrun);
        try assumption; try discriminate.
      eexists _, _. split; [apply wf_buffer_frame_read; exact Hwf|].
      split; [|rewrite Hrun, app_assoc; reflexivity].
      rewrite !List.filter_app, (quiet_no_inbound dump Qd), pushes_no_inbound.
      reflexivity.
  - exists (poll_calls tap_fd), buf.
    split; [exact Hwf|]. split; [reflexivity|].
    apply loop_body_idle; assumption.
Qed.

(** X17.  Inbound transfers of lengths the frame buffer can hold.  In a pass
    that reaches the inbound step, finds [npkt >= 1] and pulls a length [L]
    with [0 <= L <= MTU_SIZE], the inbound calls are: the query, one pull, one
    [host_rx_pkt_get_data] for each index 0, 1, ..., L-1 in that order,
    and then one [write] of exactly the [L] bytes received, which are the
    first [L] bytes of the frame buffer at that point. *)
Theorem inbound_frame_copied_then_written
    (tap_fd : Z) (inp : iter_input) (buf : list byte) :
  wf_buffer buf -> 0 <= sel_ret inp ->
  (sel_isset inp = true -> rd_result inp <> RdFail) ->
  0 < rx_npkt inp -> 0 <= rx_pkt_len inp <= MTU_SIZE ->
  let L := rx_pkt_len inp in
  let r := loop_body tap_fd inp buf in
  List.filter is_inbound_call (run_trace r)
  = [EvRxPktValid; EvRxPktPull] ++ get_data_calls L
      ++ [EvWrite tap_fd (rx_frame inp L)]
  /\ get_data_indices (run_trace r) = seqZ 0 L
  /\ written_frames (run_trace r) = [rx_frame inp L]
  /\ Z.of_nat (length (rx_frame inp L)) = L
  /\ take (Z.to_nat L) (run_buffer r) = rx_frame inp L.
Proof.
  intros Hwf Hsel Hrd Hn Hlen L r.
  destruct (loop_body_reaches_inbound tap_fd inp buf Hwf Hsel Hrd)
    as (before & buf1 & Hwf1 & Hbefore & Hrun).
  assert (List.filter is_inbound_call (run_trace r)
          = [EvRxPktValid; EvRxPktPull] ++ get_data_calls L
              ++ [EvWrite tap_fd (rx_frame inp L)]) as Hcalls.
  { unfold r. rewrite Hrun. cbn [run_trace fst snd].
    rewrite List.filter_app, Hbefore.
    apply inbound_frame_calls; assumption. }
  assert (forall t, get_data_indices t
                    = get_data_indices (List.filter is_inbound_call t)) as Hgd.
  { intros t. unfold get_data_indices.
    induction t as [|e t IH]; [reflexivity|].
    destruct e; cbn; rewrite <- ?IH; reflexivity. }
  assert (forall t, written_frames t
                    = written_frames (List.filter is_inbound_call t)) as Hwr.
  { intros t. unfold written_frames.
    induction t as [|e t IH]; [reflexivity|].
    destruct e; cbn; rewrite <- ?IH; reflexivity. }
  split; [exact Hcalls|]. split; [|split; [|split]].
  - rewrite Hgd, Hcalls. unfold get_data_indices.
    cbn [app omap list_omap]. rewrite omap_app'.
    fold (get_data_indices (get_data_calls L)).
    rewrite get_data_calls_indices. cbn. apply app_nil_r.
  - rewrite Hwr, Hcalls. unfold written_frames.
    cbn [app omap list_omap]. rewrite omap_app'.
    rewrite omap_none; [reflexivity|].
    apply Forall_fmap. apply Forall_true. reflexivity.
  - rewrite rx_frame_length. lia.
  - unfold r. rewrite Hrun. cbn [run_buffer fst snd].
    rewrite inbound_frame by assumption. cbn [run_buffer fst snd].
    apply take_app_length'. rewrite rx_frame_length. reflexivity.
Qed.

(** * Both directions in one pass *)



(** * A pulled frame longer than the buffer *)

(** C1, at the inputs where the code departs from it.  When the mailbox
    reports a queued frame and the pull returns a length above [MTU_SIZE],
    nothing rejects the frame: its first [MTU_SIZE] bytes are copied into
    the frame buffer, overwriting all of it, and one more
    [host_rx_pkt_get_data] call is made with the address one past the end
    of the buffer, a store outside the array, where the behaviour of the
    program is undefined.  The loop goes on to the pulled length, each
    call with an address further past the end, and [write] is then called
    with the pulled length as its count, more than the buffer holds. *)
Theorem oversize_inbound_overruns_buffer
    (tap_fd : Z) (inp : iter_input) (buf : list byte) :
  wf_buffer buf ->
  0 <= sel_ret inp -> sel_isset inp = false ->
  0 < rx_npkt inp -> MTU_SIZE < rx_pkt_len inp ->
  loop_body tap_fd inp buf
  = (poll_calls tap_fd
       ++ [EvRxPktValid; EvRxPktPull; send_report (rx_pkt_len inp)]
       ++ get_data_calls MTU_SIZE
       ++ [EvRxPktGetData MTU_SIZE (to_uint16 MTU_SIZE)]
       ++ get_data_events (MTU_SIZE + 1) (rx_pkt_len inp - MTU_SIZE - 1)
       ++ EvWriteOutside tap_fd (rx_pkt_len inp)
       :: (if wr_ret inp <? 0 then [EvPerror "Writing data"] else []),
     rx_frame inp MTU_SIZE,
     if wr_ret inp <? 0 then Stop (Exited 1) else Val tt)
  /\ outside_buffer (EvRxPktGetData MTU_SIZE (to_uint16 MTU_SIZE)) = true.
Proof.
  intros Hwf Hsel Hset Hn Hlen. split; [|reflexivity].
  rewrite loop_body_idle by assumption.
  rewrite inbound_oversize by assumption.
  cbn [run_trace run_buffer run_result fst snd].
  assert (get_data_events MTU_SIZE (rx_pkt_len inp - MTU_SIZE)
          = [EvRxPktGetData MTU_SIZE (to_uint16 MTU_SIZE)]
              ++ get_data_events (MTU_SIZE + 1) (rx_pkt_len inp - MTU_SIZE - 1))
    as ->.
  { replace (rx_pkt_len inp - MTU_SIZE)
      with (1 + (rx_pkt_len inp - MTU_SIZE - 1)) at 1 by lia.
    rewrite get_data_events_app by lia. reflexivity. }
  unfold get_data_calls. rewrite <- !app_assoc. reflexivity.
Qed.

Lemma outside_buffer_inbound (t : trace) :
  List.filter outside_buffer t
  = List.filter outside_buffer (List.filter is_inbound_call t).
Proof.
  induction t as [|e t IH]; [reflexivity|].
  destruct e; cbn; rewrite <- ?IH; reflexivity.
Qed.

Lemma written_frames_inbound (t : trace) :
  written_frames t = written_frames (List.filter is_inbound_call t).
Proof.
  unfold written_frames.
  induction t as [|e t IH]; [reflexivity|].
  destruct e; cbn; rewrite <- ?IH; reflexivity.
Qed.

Lemma get_data_events_inside (count : Z) :
  count <= MTU_SIZE ->
  List.filter outside_buffer (get_data_events 0 count) = [].
Proof.
  intros Hc. apply filter_none. unfold get_data_events.
  apply Forall_fmap, Forall_seqZ. intros j Hj. cbn.
  destruct (Z.leb_spec 0 j); [|lia].
  destruct (Z.ltb_spec j MTU_SIZE); [|lia]. reflexivity.
Qed.

Lemma get_data_events_outside (from count : Z) :
  MTU_SIZE <= from ->
  List.filter outside_buffer (get_data_events from count)
  = get_data_events from count.
Proof.
  intros Hf. apply filter_all. unfold get_data_events.
  apply Forall_fmap, Forall_seqZ. intros j Hj. cbn.
  destruct (Z.ltb_spec j MTU_SIZE); [lia|].
  rewrite andb_false_r. reflexivity.
Qed.

Lemma get_data_events_inbound (from count : Z) :
  List.filter is_inbound_call (get_data_events from count)
  = get_data_events from count.
Proof.
  apply filter_all. apply Forall_fmap. apply Forall_true. reflexivity.
Qed.

Lemma get_data_events_not_written (from count : Z) :
  written_frames (get_data_events from count) = [].
Proof. apply omap_none, Forall_fmap, Forall_true. reflexivity. Qed.

(** C6, at the inputs where the code departs from it.  In a pass that
    reaches the inbound step, finds [npkt >= 1] and pulls a length [L]
    above [MTU_SIZE], the inbound calls are the query, one pull, [L]
    [host_rx_pkt_get_data] calls at positions 0 .. L-1, and one [write]
    with count [L].  The frame buffer has [MTU_SIZE] bytes: the copies at
    positions [MTU_SIZE] .. L-1 are handed addresses past its end, it
    holds the first [MTU_SIZE] bytes received and no more, and the [L]
    bytes [write] is asked for are not all bytes of the frame buffer. *)
Theorem oversize_frame_not_from_buffer
    (tap_fd : Z) (inp : iter_input) (buf : list byte) :
  wf_buffer buf -> 0 <= sel_ret inp ->
  (sel_isset inp = true -> rd_result inp <> RdFail) ->
  0 < rx_npkt inp -> MTU_SIZE < rx_pkt_len inp ->
  let L := rx_pkt_len inp in
  let r := loop_body tap_fd inp buf in
  List.filter is_inbound_call (run_trace r)
  = [EvRxPktValid; EvRxPktPull] ++ get_data_events 0 L
      ++ [EvWriteOutside tap_fd L]
  /\ List.filter outside_buffer (run_trace r)
     = get_data_events MTU_SIZE (L - MTU_SIZE) ++ [EvWriteOutside tap_fd L]
  /\ written_frames (run_trace r) = []
  /\ run_buffer r = rx_frame inp MTU_SIZE.
Proof.
  intros Hwf Hsel Hrd Hn Hlen L r.
  destruct (loop_body_reaches_inbound tap_fd inp buf Hwf Hsel Hrd)
    as (before & buf1 & Hwf1 & Hbefore & Hrun).
  assert (List.filter is_inbound_call (run_trace r)
          = [EvRxPktValid; EvRxPktPull] ++ get_data_events 0 L
              ++ [EvWriteOutside tap_fd L]) as Hcalls.
  { unfold r. rewrite Hrun. cbn [run_trace fst snd].
    rewrite List.filter_app, Hbefore.
    destruct (inbound_pulled tap_fd inp buf1 Hwf1 Hn) as (Ht & _ & _).
    cbv zeta in Ht. rewrite Ht. rewrite write_call_out by (right; exact Hlen).
    rewrite !List.filter_app, get_data_events_inbound.
    destruct (wr_ret inp <? 0); reflexivity. }
  split; [exact Hcalls|]. split; [|split].
  - rewrite outside_buffer_inbound, Hcalls.
    replace L with (MTU_SIZE + (L - MTU_SIZE)) at 1 by lia.
    rewrite get_data_events_app by (unfold MTU_SIZE in *; lia).
    rewrite !List.filter_app.
    rewrite get_data_events_inside by lia.
    rewrite get_data_events_outside by lia. reflexivity.
  - rewrite written_frames_inbound, Hcalls.
    unfold written_frames. cbn [app omap list_omap]. rewrite omap_app'.
    fold (written_frames (get_data_events 0 L)).
    rewrite get_data_events_not_written. reflexivity.
  - unfold r. rewrite Hrun. cbn [run_buffer fst snd].
    rewrite inbound_oversize by assumption. reflexivity.
Qed.

(** * The loop as a whole *)

Lemma pass_calls_app (t1 t2 : trace) :
  pass_calls t1 -> pass_calls t2 -> pass_calls (t1 ++ t2).
Proof. intros H1 H2. apply Forall_app. split; assumption. Qed.

Lemma pass_calls_poll (tap_fd : Z) : pass_calls (poll_calls tap_fd).
Proof. repeat constructor. Qed.

(** The transfer steps of a pass. *)
Lemma transfers_within (tap_fd : Z) (inp : iter_input) :
  within (fun e => is_pass_call e = true) transfer_stop
    ((if sel_isset inp then outbound tap_fd inp else mret tt);;
     inbound tap_fd inp).
Proof.
  assert (forall e, is_log e = true -> is_pass_call e = true) as Hlog
    by (intros e; destruct e; cbn; congruence).
  assert (forall e, is_tx e = true -> is_pass_call e = true) as Htx
    by (intros e; destruct e; cbn; congruence).
  assert (forall e, is_rx e = true -> is_pass_call e = true) as Hrx
    by (intros e; destruct e; cbn; congruence).
  assert (forall e, is_write e = true -> is_pass_call e = true) as Hwr
    by (intros e; destruct e; cbn; congruence).
  apply within_bind.
  - destruct (sel_isset inp); [|apply within_ret].
    apply within_outbound; unfold transfer_stop; auto.
  - intros _. apply within_inbound; unfold transfer_stop; auto.
Qed.

(** One pass either fails its poll fatally, closing the descriptor and
    returning -5, or makes pass calls only and then falls through,
    continues, exits with status 1 or reads outside the buffer. *)
Lemma loop_body_end (tap_fd : Z) (inp : iter_input) (buf : list byte) :
  (poll_is_fatal inp /\
   loop_body tap_fd inp buf
   = (poll_calls tap_fd
        ++ [poll_failure_report tap_fd (sel_errno inp); EvClose tap_fd],
      buf, Stop (Returned (-5))))
  \/
  (pass_calls (run_trace (loop_body tap_fd inp buf)) /\
   (run_result (loop_body tap_fd inp buf) = Val tt \/
    run_result (loop_body tap_fd inp buf) = Stop Continue \/
    run_result (loop_body tap_fd inp buf) = Stop (Exited 1) \/
    run_result (loop_body tap_fd inp buf) = Stop OutOfBounds)).
Proof.
  unfold loop_body.
  destruct (Z.lt_ge_cases (sel_ret inp) 0) as [Hneg | Hsel].
  - destruct (Z.eq_dec (sel_errno inp) EINTR) as [He | He];
      [|destruct (Z.eq_dec (sel_errno inp) EAGAIN) as [He' | He']].
    + right. erewrite bind_stop by (apply poll_transient; auto).
      split; [apply pass_calls_poll|auto].
    + right. erewrite bind_stop by (apply poll_transient; auto).
      split; [apply pass_calls_poll|auto].
    + left. split; [repeat split; assumption|].
      erewrite bind_stop by (apply poll_fatal; auto). reflexivity.
  - right. erewrite bind_val by (apply poll_ready; exact Hsel).
    destruct (transfers_within tap_fd inp buf) as [Ht Hr].
    cbn [run_trace run_result fst snd] in *.
    split; [apply pass_calls_app; [apply pass_calls_poll|exact Ht]|].
    destruct (run_result _) as [[]|s]; [auto|].
    destruct (Hr s eq_refl) as [-> | ->]; auto.
Qed.

Lemma loop_end_weaken (tap_fd : Z) (inp : iter_input) (script : list iter_input)
    (t : trace) (r : result unit) :
  loop_end tap_fd script t r -> loop_end tap_fd (inp :: script) t r.
Proof.
  intros H. destruct H; try (constructor; assumption).
  eapply loop_poll_failed; [assumption|right; eassumption|assumption].
Qed.

Lemma loop_end_prepend (tap_fd : Z) (script : list iter_input)
    (t1 t : trace) (r : result unit) :
  pass_calls t1 -> loop_end tap_fd script t r ->
  loop_end tap_fd script (t1 ++ t) r.
Proof.
  intros H1 H. destruct H.
  - constructor. apply pass_calls_app; assumption.
  - constructor. apply pass_calls_app; assumption.
  - constructor. apply pass_calls_app; assumption.
  - rewrite app_assoc. eapply loop_poll_failed; [|eassumption|assumption].
    apply pass_calls_app; assumption.
Qed.

(** The loop is never left by falling out of it: it has no [break]. *)
Lemma main_loop_end (tap_fd : Z) (script : list iter_input) (buf : list byte) :
  loop_end tap_fd script
    (run_trace (main_loop tap_fd script buf))
    (run_result (main_loop tap_fd script buf)).
Proof.
  revert buf. induction script as [|inp rest IH]; intros buf.
  - cbn. constructor. constructor.
  - cbn [main_loop]. unfold while_step.
    destruct (loop_body_end tap_fd inp buf) as [[Hfatal Hrun] | [Ht Hr]].
    + rewrite Hrun. cbn [run_trace run_result fst snd].
      change [poll_failure_report tap_fd (sel_errno inp); EvClose tap_fd]
        with ([poll_failure_report tap_fd (sel_errno inp)] ++ [EvClose tap_fd]).
      rewrite app_assoc.
      eapply loop_poll_failed; [|left; reflexivity|exact Hfatal].
      apply pass_calls_app; [apply pass_calls_poll|repeat constructor].
    + destruct (loop_body tap_fd inp buf) as [[t1 buf1] r1].
      cbn [run_trace run_result fst snd] in Ht, Hr.
      specialize (IH buf1).
      destruct Hr as [-> | [-> | [-> | ->]]].
      * destruct (main_loop tap_fd rest buf1) as [[t2 buf2] r2].
        cbn [run_trace run_result fst snd] in *.
        apply loop_end_prepend; [exact Ht|].
        apply loop_end_weaken. exact IH.
      * destruct (main_loop tap_fd rest buf1) as [[t2 buf2] r2].
        cbn [run_trace run_result fst snd] in *.
        apply loop_end_prepend; [exact Ht|].
        apply loop_end_weaken. exact IH.
      * cbn. constructor. exact Ht.
      * cbn. constructor. exact Ht.
Qed.

(** Passes that all go on to the next one can be run first. *)
Lemma main_loop_app (tap_fd : Z) (pre rest : list iter_input)
    (buf buf1 : list byte) (t1 : trace) :
  main_loop tap_fd pre buf = (t1, buf1, Stop Pending) ->
  main_loop tap_fd (pre ++ rest) buf
  = (t1 ++ run_trace (main_loop tap_fd rest buf1),
     run_buffer (main_loop tap_fd rest buf1),
     run_result (main_loop tap_fd rest buf1)).
Proof.
  revert buf t1. induction pre as [|inp pre IH]; intros buf t1 Hpre.
  - cbn in Hpre. injection Hpre as <- <-. cbn [app]. apply run_eta.
  - cbn [app main_loop] in *. unfold while_step in *.
    pose proof (loop_body_end tap_fd inp buf) as Hend.
    destruct (loop_body tap_fd inp buf) as [[ta bufa] [[]|[]]];
      try discriminate;
      try (exfalso; destruct Hend as [[_ H] | [_ [H | [H | [H | H]]]]];
           discriminate).
    + destruct (main_loop tap_fd pre bufa) as [[tb bufb] rb] eqn:Hb.
      injection Hpre as <- <- ->.
      rewrite (IH bufa tb Hb). cbn [run_trace run_buffer run_result fst snd].
      rewrite app_assoc. reflexivity.
    + destruct (main_loop tap_fd pre bufa) as [[tb bufb] rb] eqn:Hb.
      injection Hpre as <- <- ->.
      rewrite (IH bufa tb Hb). cbn [run_trace run_buffer run_result fst snd].
      rewrite app_assoc. reflexivity.
Qed.

(** * eth_dpi_main from start to end *)

Lemma ifr_name_tap0 : c_str ifr_name = "tap0"%string.
Proof. reflexivity. Qed.

Lemma main_open_failed (argc : Z) (argv : list string)
    (su : startup_input) (script : list iter_input) (buf : list byte) :
  open_ret su < 0 ->
  eth_dpi_main argc argv su script buf
  = ([open_call;
      EvPrintf "HOST: ERROR: failed to open TAP device: fd=%x\n"
        [PInt (open_ret su)]],
     buf, Stop (Returned (-1))).
Proof.
  intros H. unfold eth_dpi_main.
  destruct (Z.ltb_spec (open_ret su) 0); [|lia]. reflexivity.
Qed.

Lemma main_ioctl_failed (argc : Z) (argv : list string)
    (su : startup_input) (script : list iter_input) (buf : list byte) :
  0 <= open_ret su -> ioctl_ret su < 0 ->
  eth_dpi_main argc argv su script buf
  = ([open_call; ioctl_call (open_ret su);
      EvPrintf
        "HOST: ERROR: failed to set TAP device name: fd=%x, errsv=%x :  %s\n"
        [PInt (open_ret su); PInt (ioctl_errno su); PStrerror (ioctl_errno su)];
      EvClose (open_ret su)],
     buf, Stop (Returned (-2))).
Proof.
  intros H1 H2. unfold eth_dpi_main.
  destruct (Z.ltb_spec (open_ret su) 0); [lia|].
  destruct (Z.ltb_spec (ioctl_ret su) 0); [|lia]. reflexivity.
Qed.

(** Once started, the function ends the way its loop ends; the lines after
    the loop are never reached. *)
Lemma main_started (argc : Z) (argv : list string)
    (su : startup_input) (script : list iter_input) (buf : list byte) :
  0 <= open_ret su -> 0 <= ioctl_ret su ->
  exists s,
    run_result (main_loop (open_ret su) script buf) = Stop s /\
    eth_dpi_main argc argv su script buf
    = (startup_calls su ++ run_trace (main_loop (open_ret su) script buf),
       run_buffer (main_loop (open_ret su) script buf),
       Stop s).
Proof.
  intros H1 H2.
  pose proof (main_loop_end (open_ret su) script buf) as Hend.
  unfold eth_dpi_main.
  destruct (Z.ltb_spec (open_ret su) 0); [lia|].
  destruct (Z.ltb_spec (ioctl_ret su) 0); [lia|].
  destruct (main_loop (open_ret su) script buf) as [[t b] r] eqn:Hloop.
  cbn [run_trace run_buffer run_result fst snd] in *.
  assert (exists s, r = Stop s) as [s ->] by (destruct Hend; eauto).
  exists s. split; [reflexivity|].
  unfold mbind, M_bind, emit. rewrite Hloop. reflexivity.
Qed.

Lemma pass_call_not_close (e : event) :
  is_pass_call e = true -> is_close e = false.
Proof. destruct e; cbn; congruence. Qed.

Lemma pass_calls_no_close (t : trace) :
  pass_calls t -> List.filter is_close t = [].
Proof.
  intros H. apply filter_none. eapply Forall_impl; [exact H|].
  apply pass_call_not_close.
Qed.

Lemma pass_calls_no_ioctl (t : trace) : pass_calls t -> ioctl_names t = [].
Proof.
  intros H. apply omap_none. eapply Forall_impl; [exact H|].
  intros e. destruct e; cbn; congruence.
Qed.

(** * Return codes *)

(** C8.  The function returns -1 when the device cannot be opened, -2
    when the interface cannot be configured, and -5 when a poll fails with
    an error that is not transient, in whichever pass that happens; the
    three codes are negative and differ, and each is returned only at its
    own site.  The function never returns 0 and never falls off its end:
    the statements after the loop cannot be reached from inside it. *)
Theorem return_codes_name_the_failure_site
    (argc : Z) (argv : list string)
    (su : startup_input) (script : list iter_input) :
  let r := run argc argv su script in
  (open_ret su < 0 -> run_result r = Stop (Returned (-1)))
  /\ (0 <= open_ret su -> ioctl_ret su < 0 ->
      run_result r = Stop (Returned (-2)))
  /\ (0 <= open_ret su -> 0 <= ioctl_ret su ->
      forall pre inp post,
        script = pre ++ inp :: post ->
        run_result (run argc argv su pre) = Stop Pending ->
        poll_is_fatal inp ->
        run_result r = Stop (Returned (-5)))
  /\ (forall c, run_result r = Stop (Returned c) ->
        (c = -1 /\ open_ret su < 0)
        \/ (c = -2 /\ 0 <= open_ret su /\ ioctl_ret su < 0)
        \/ (c = -5 /\ 0 <= open_ret su /\ 0 <= ioctl_ret su /\
            exists inp, In inp script /\ poll_is_fatal inp))
  /\ run_result r <> Stop (Returned 0)
  /\ (forall v, run_result r <> Val v).
Proof.
  intros r. unfold r, run.
  assert (forall c, run_result (eth_dpi_main argc argv su script buffer_init)
                    = Stop (Returned c) ->
            (c = -1 /\ open_ret su < 0)
            \/ (c = -2 /\ 0 <= open_ret su /\ ioctl_ret su < 0)
            \/ (c = -5 /\ 0 <= open_ret su /\ 0 <= ioctl_ret su /\
                exists inp, In inp script /\ poll_is_fatal inp)) as Hcodes.
  { intros c Hc.
    destruct (Z.lt_ge_cases (open_ret su) 0) as [Ho | Ho].
    { rewrite main_open_failed in Hc by exact Ho.
      injection Hc as <-. left. split; [reflexivity|exact Ho]. }
    destruct (Z.lt_ge_cases (ioctl_ret su) 0) as [Hi | Hi].
    { rewrite main_ioctl_failed in Hc by assumption.
      injection Hc as <-. right; left. repeat split; assumption. }
    destruct (main_started argc argv su script buffer_init Ho Hi)
      as (s & Hs & Hrun).
    rewrite Hrun in Hc. cbn [run_result snd] in Hc. injection Hc as ->.
    pose proof (main_loop_end (open_ret su) script buffer_init) as Hend.
    rewrite Hs in Hend. inversion Hend; subst.
    right; right. repeat split; try assumption. eauto. }
  split; [|split; [|split; [|split; [|split]]]].
  - intros Ho. rewrite main_open_failed by exact Ho. reflexivity.
  - intros Ho Hi. rewrite main_ioctl_failed by assumption. reflexivity.
  - intros Ho Hi pre inp post -> Hpre Hfatal.
    destruct (main_started argc argv su pre buffer_init Ho Hi)
      as (s & Hs & Hrun).
    rewrite Hrun in Hpre. cbn [run_result snd] in Hpre.
    injection Hpre as ->.
    destruct (main_started argc argv su (pre ++ inp :: post) buffer_init Ho Hi)
      as (s' & Hs' & Hrun').
    rewrite Hrun'. cbn [run_result snd]. f_equal.
    destruct (main_loop (open_ret su) pre buffer_init) as [[t1 buf1] r1] eqn:Hloop.
    cbn [run_result snd] in Hs. subst r1.
    rewrite (main_loop_app _ _ _ _ _ _ Hloop) in Hs'.
    cbn [run_result snd main_loop] in Hs'. unfold while_step in Hs'.
    destruct Hfatal as (Hneg & He1 & He2).
    unfold loop_body in Hs'.
    erewrite bind_stop in Hs' by (apply poll_fatal; assumption).
    cbn in Hs'. congruence.
  - exact Hcodes.
  - intros H0. destruct (Hcodes 0 H0) as [[? _] | [[? _] | [? _]]]; lia.
  - intros v Hv.
    destruct (Z.lt_ge_cases (open_ret su) 0) as [Ho | Ho].
    { rewrite main_open_failed in Hv by exact Ho. discriminate. }
    destruct (Z.lt_ge_cases (ioctl_ret su) 0) as [Hi | Hi].
    { rewrite main_ioctl_failed in Hv by assumption. discriminate. }
    destruct (main_started argc argv su script buffer_init Ho Hi)
      as (s & Hs & Hrun).
    rewrite Hrun in Hv. discriminate.
Qed.

(** * Closing the descriptor *)

(** C4, as the code has it.  When the function returns after a failed
    interface configuration (-2) or a failed poll (-5), [close (tap_fd)] is
    its last call and its only [close].  When it returns because the
    device could not be opened (-1) there is no descriptor and no [close].
    When a failed read or write ends the process, which [fd_read] and
    [fd_write] do themselves through [exit (1)], no [close] has been
    called. *)
Theorem close_precedes_return_not_exit
    (argc : Z) (argv : list string)
    (su : startup_input) (script : list iter_input) :
  let r := run argc argv su script in
  (forall c, run_result r = Stop (Returned c) ->
     (c = -1 /\ List.filter is_close (run_trace r) = [])
     \/ ((c = -2 \/ c = -5) /\
         exists t, run_trace r = t ++ [EvClose (open_ret su)] /\
                   List.filter is_close t = []))
  /\ (forall s, run_result r = Stop (Exited s) ->
        s = 1 /\ List.filter is_close (run_trace r) = []).
Proof.
  intros r. unfold r, run.
  destruct (Z.lt_ge_cases (open_ret su) 0) as [Ho | Ho].
  { rewrite main_open_failed by exact Ho. split.
    - intros c [= <-]. left. split; reflexivity.
    - intros s [=]. }
  destruct (Z.lt_ge_cases (ioctl_ret su) 0) as [Hi | Hi].
  { rewrite main_ioctl_failed by assumption. split.
    - intros c [= <-]. right. split; [left; reflexivity|].
      eexists [_; _; _]. split; reflexivity.
    - intros s [=]. }
  destruct (main_started argc argv su script buffer_init Ho Hi)
    as (s0 & Hs & Hrun).
  pose proof (main_loop_end (open_ret su) script buffer_init) as Hend.
  rewrite Hrun. clear Hrun.
  destruct (main_loop (open_ret su) script buffer_init) as [[tl bl] rl].
  cbn [run_trace run_result fst snd] in *. subst rl. split.
  - intros c [= ->]. inversion Hend as [| | |t inp Ht Hin Hfatal Htr]; subst.
    right. split; [right; reflexivity|].
    exists (startup_calls su ++ t). split.
    + rewrite app_assoc. reflexivity.
    + rewrite List.filter_app, (pass_calls_no_close t Ht). reflexivity.
  - intros s [= ->]. inversion Hend as [|t Ht Htr| |]; subst.
    split; [reflexivity|].
    rewrite List.filter_app, (pass_calls_no_close _ Ht). reflexivity.
Qed.

(** * Poll failures *)

(** C5, as the code has it.  When [select] fails with [EINTR] or with
    [EAGAIN] the pass ends at once with [continue]: its only calls were the
    delay and the poll, and the buffer is as it was.  When [select] fails
    with any other error the pass reports it, closes the descriptor and
    returns -5, and that ends the loop whatever passes would follow. *)
Theorem poll_failure_retried_or_fatal
    (tap_fd : Z) (inp : iter_input) (rest : list iter_input) (buf : list byte) :
  sel_ret inp < 0 ->
  (sel_errno inp = EINTR \/ sel_errno inp = EAGAIN ->
     loop_body tap_fd inp buf = (poll_calls tap_fd, buf, Stop Continue))
  /\
  (sel_errno inp <> EINTR -> sel_errno inp <> EAGAIN ->
     loop_body tap_fd inp buf
     = (poll_calls tap_fd
          ++ [poll_failure_report tap_fd (sel_errno inp); EvClose tap_fd],
        buf, Stop (Returned (-5)))
     /\ main_loop tap_fd (inp :: rest) buf
        = (poll_calls tap_fd
             ++ [poll_failure_report tap_fd (sel_errno inp); EvClose tap_fd],
           buf, Stop (Returned (-5)))).
Proof.
  intros Hneg. split.
  - intros He. unfold loop_body.
    erewrite bind_stop by (apply poll_transient; assumption). reflexivity.
  - intros He1 He2.
    assert (loop_body tap_fd inp buf
            = (poll_calls tap_fd
                 ++ [poll_failure_report tap_fd (sel_errno inp); EvClose tap_fd],
               buf, Stop (Returned (-5)))) as Hbody.
    { unfold loop_body.
      erewrite bind_stop by (apply poll_fatal; assumption). reflexivity. }
    split; [exact Hbody|].
    cbn [main_loop]. unfold while_step. rewrite Hbody. reflexivity.
Qed.

(** Every pass begins with the delay and the poll. *)
Lemma loop_body_starts (tap_fd : Z) (inp : iter_input) (buf : list byte) :
  exists t,
    run_trace (loop_body tap_fd inp buf)
    = EvHostDelay 1000 :: EvSelect (tap_fd + 1) [tap_fd] 0 0 :: t.
Proof.
  unfold loop_body.
  destruct (Z.lt_ge_cases (sel_ret inp) 0) as [Hneg | Hsel].
  - destruct (Z.eq_dec (sel_errno inp) EINTR) as [He | He];
      [|destruct (Z.eq_dec (sel_errno inp) EAGAIN) as [He' | He']].
    + erewrite bind_stop by (apply poll_transient; auto). cbn. eauto.
    + erewrite bind_stop by (apply poll_transient; auto). cbn. eauto.
    + erewrite bind_stop by (apply poll_fatal; auto). cbn. eauto.
  - erewrite bind_val by (apply poll_ready; exact Hsel). cbn. eauto.
Qed.

Lemma main_loop_starts (tap_fd : Z) (inp : iter_input)
    (rest : list iter_input) (buf : list byte) :
  exists t,
    run_trace (main_loop tap_fd (inp :: rest) buf)
    = EvHostDelay 1000 :: EvSelect (tap_fd + 1) [tap_fd] 0 0 :: t.
Proof.
  cbn [main_loop]. unfold while_step.
  destruct (loop_body_starts tap_fd inp buf) as [t Ht].
  destruct (loop_body tap_fd inp buf) as [[t1 b1] r1].
  cbn [run_trace fst snd] in Ht. subst t1.
  destruct r1 as [[]|[]];
    try destruct (main_loop tap_fd rest b1) as [[t2 b2] r2];
    cbn; eauto.
Qed.

(** C9.  A pass whose poll fails with [EINTR] or [EAGAIN] consists of
    [host_delay (1000)] and the [select] call and nothing else, whatever
    the mailbox holds: no read, no mailbox call, no write.  The loop then
    starts its next pass from the top with the buffer unchanged, and that
    pass, like every pass, begins with [host_delay (1000)] followed by
    [select]. *)
Theorem transient_poll_failure_restarts_pass
    (tap_fd : Z) (inp : iter_input) (rest : list iter_input) (buf : list byte) :
  sel_ret inp < 0 ->
  sel_errno inp = EINTR \/ sel_errno inp = EAGAIN ->
  main_loop tap_fd (inp :: rest) buf
  = ([EvHostDelay 1000; EvSelect (tap_fd + 1) [tap_fd] 0 0]
       ++ run_trace (main_loop tap_fd rest buf),
     run_buffer (main_loop tap_fd rest buf),
     run_result (main_loop tap_fd rest buf))
  /\
  (forall next rest', rest = next :: rest' ->
     exists t,
       run_trace (main_loop tap_fd rest buf)
       = EvHostDelay 1000 :: EvSelect (tap_fd + 1) [tap_fd] 0 0 :: t).
Proof.
  intros Hneg He. split.
  - cbn [main_loop]. unfold while_step, loop_body.
    erewrite bind_stop by (apply poll_transient; assumption).
    fold (poll_calls tap_fd).
    destruct (main_loop tap_fd rest buf) as [[t2 buf2] r2]. reflexivity.
  - intros next rest' ->. apply main_loop_starts.
Qed.

(** * The arguments *)

Lemma main_loop_no_ioctl (tap_fd : Z) (script : list iter_input) (buf : list byte) :
  ioctl_names (run_trace (main_loop tap_fd script buf)) = [].
Proof.
  destruct (main_loop_end tap_fd script buf) as [t Ht|t Ht|t Ht|t inp Ht _ _].
  - apply pass_calls_no_ioctl, Ht.
  - apply pass_calls_no_ioctl, Ht.
  - apply pass_calls_no_ioctl, Ht.
  - unfold ioctl_names. rewrite omap_app'.
    fold (ioctl_names t). rewrite (pass_calls_no_ioctl t Ht). reflexivity.
Qed.

(** C10.  [eth_dpi_main] does not look at [argc] or [argv]: two runs that
    get the same answers from the system and the simulator make the same
    calls, leave the same buffer and end the same way, whatever their
    arguments.  The interface name handed to [ioctl] is "tap0" in every
    run that gets as far as configuring the interface, and no other
    [ioctl] is made. *)
Theorem arguments_are_ignored
    (argc argc' : Z) (argv argv' : list string)
    (su : startup_input) (script : list iter_input) :
  run argc argv su script = run argc' argv' su script
  /\ ioctl_names (run_trace (run argc argv su script))
     = if open_ret su <? 0 then [] else ["tap0"%string].
Proof.
  split; [reflexivity|]. unfold run.
  destruct (Z.ltb_spec (open_ret su) 0) as [Ho | Ho].
  { rewrite main_open_failed by exact Ho. reflexivity. }
  destruct (Z.lt_ge_cases (ioctl_ret su) 0) as [Hi | Hi].
  { rewrite main_ioctl_failed by assumption. reflexivity. }
  destruct (main_started argc argv su script buffer_init Ho Hi)
    as (s & Hs & Hrun).
  rewrite Hrun.
  change (run_trace (?t, ?b, ?r)) with t.
  unfold ioctl_names. rewrite omap_app'.
  fold (ioctl_names (run_trace (main_loop (open_ret su) script buffer_init))).
  rewrite main_loop_no_ioctl. reflexivity.
Qed.

(** * Behaviour at sample inputs *)

(** A failed read with a frame queued in the mailbox: the process ends
    with status 1 inside [fd_read]; the mailbox is not even queried. *)
Lemma failed_read_is_escalated :
  rd_result pass_failed_read = RdFail
  /\ run_result (loop_body 3 pass_failed_read buffer_init) = Stop (Exited 1)
  /\ List.filter is_rx (run_trace (loop_body 3 pass_failed_read buffer_init)) = [].
Proof.
  rewrite loop_body_failed_read by (cbn; first [lia | reflexivity]).
  repeat split.
Qed.

(** The same failed read seen from [eth_dpi_main]: the process exits and
    no [close] was ever called. *)
Lemma failed_read_exits_without_close :
  run_result (run 0 [] startup_ok [pass_failed_read]) = Stop (Exited 1)
  /\ List.filter is_close (run_trace (run 0 [] startup_ok [pass_failed_read])) = [].
Proof.
  unfold run, eth_dpi_main. cbn [open_ret ioctl_ret startup_ok Z.ltb Z.compare].
  cbn [main_loop]. unfold while_step.
  unfold mbind, M_bind, emit.
  rewrite loop_body_failed_read by (cbn; first [lia | reflexivity]).
  split; reflexivity.
Qed.

(** A poll that fails with [EAGAIN], which is not [EINTR]: the pass is
    abandoned with [continue], nothing is closed and nothing returned. *)
Lemma eagain_poll_failure_is_not_fatal :
  sel_ret (pass_poll_failed EAGAIN) < 0
  /\ sel_errno (pass_poll_failed EAGAIN) <> EINTR
  /\ loop_body 3 (pass_poll_failed EAGAIN) buffer_init
     = ([EvHostDelay 1000; EvSelect 4 [3] 0 0], buffer_init, Stop Continue).
Proof.
  split; [cbn; lia|]. split; [cbn; unfold EAGAIN, EINTR; lia|].
  unfold loop_body.
  erewrite bind_stop; [reflexivity|].
  apply poll_transient; [cbn; lia|right; reflexivity].
Qed.

(** A pull of 1501 bytes with nothing to read from the host. *)
Lemma oversize_inbound_overruns_buffer_witness :
  (wf_buffer buffer_init
   /\ 0 <= sel_ret (pass_pull 1501)
   /\ sel_isset (pass_pull 1501) = false
   /\ 0 < rx_npkt (pass_pull 1501)
   /\ MTU_SIZE < rx_pkt_len (pass_pull 1501))
  /\ loop_body 3 (pass_pull 1501) buffer_init
     = (poll_calls 3
          ++ [EvRxPktValid; EvRxPktPull; send_report 1501]
          ++ get_data_calls MTU_SIZE
          ++ [EvRxPktGetData MTU_SIZE (to_uint16 MTU_SIZE)]
          ++ []
          ++ [EvWriteOutside 3 1501],
        rx_frame (pass_pull 1501) MTU_SIZE,
        Val tt)
  /\ outside_buffer (EvRxPktGetData MTU_SIZE (to_uint16 MTU_SIZE)) = true.
Proof.
  assert (wf_buffer buffer_init) as H1 by reflexivity.
  assert (0 <= sel_ret (pass_pull 1501)) as H2 by (simpl; lia).
  assert (sel_isset (pass_pull 1501) = false) as H3 by reflexivity.
  assert (0 < rx_npkt (pass_pull 1501)) as H4 by (simpl; lia).
  assert (MTU_SIZE < rx_pkt_len (pass_pull 1501)) as H5 by reflexivity.
  split; [repeat split; assumption|].
  exact (oversize_inbound_overruns_buffer 3 (pass_pull 1501) buffer_init
           H1 H2 H3 H4 H5).
Defined.

(** A read of zero bytes with an empty mailbox. *)
Lemma zero_read_skipped_witness :
  (wf_buffer buffer_init
   /\ 0 <= sel_ret pass_zero_read
   /\ sel_isset pass_zero_read = true
   /\ rd_result pass_zero_read = RdFrame [])
  /\ loop_body 3 pass_zero_read buffer_init
     = ([EvHostDelay 1000; EvSelect 4 [3] 0 0;
         EvRead 3 1500; bad_packet_report 0; EvRxPktValid],
        buffer_init, Val tt)
  /\ List.filter is_tx (run_trace (loop_body 3 pass_zero_read buffer_init)) = [].
Proof.
  assert (wf_buffer buffer_init) as H1 by reflexivity.
  assert (0 <= sel_ret pass_zero_read) as H2 by (simpl; lia).
  assert (sel_isset pass_zero_read = true) as H3 by reflexivity.
  assert (rd_result pass_zero_read = RdFrame []) as H4 by reflexivity.
  split; [repeat split; assumption|].
  exact (proj1 (zero_read_skipped_failed_read_fatal 3 pass_zero_read buffer_init
                  H1 H2 H3) H4).
Defined.

(** A three-byte frame from the host. *)
Lemma tx_push_every_byte_then_commit_witness :
  (wf_buffer buffer_init
   /\ 0 <= sel_ret pass_both_ready
   /\ sel_isset pass_both_ready = true
   /\ rd_result pass_both_ready = RdFrame [x01; x02; x03]
   /\ [x01; x02; x03] <> [])
  /\ List.filter is_tx (run_trace (loop_body 3 pass_both_ready buffer_init))
     = [EvTxDataPush x01; EvTxDataPush x02; EvTxDataPush x03; EvTxTransferInit].
Proof.
  assert (wf_buffer buffer_init) as H1 by reflexivity.
  assert (0 <= sel_ret pass_both_ready) as H2 by (simpl; lia).
  assert (sel_isset pass_both_ready = true) as H3 by reflexivity.
  assert (rd_result pass_both_ready = RdFrame [x01; x02; x03]) as H4
    by reflexivity.
  assert ([x01; x02; x03] <> []) as H5 by discriminate.
  split; [repeat split; assumption|].
  exact (proj1 (tx_push_every_byte_then_commit 3 pass_both_ready buffer_init H1)
           [x01; x02; x03] H2 H3 H4 H5).
Defined.

(** Start-up succeeds, then the first read fails. *)
Lemma close_precedes_return_not_exit_witness :
  run_result (run 0 [] startup_ok [pass_failed_read]) = Stop (Exited 1)
  /\ (1 = 1
      /\ List.filter is_close
           (run_trace (run 0 [] startup_ok [pass_failed_read])) = []).
Proof.
  assert (run_result (run 0 [] startup_ok [pass_failed_read]) = Stop (Exited 1))
    as H by (vm_compute; reflexivity).
  split; [exact H|].
  exact (proj2 (close_precedes_return_not_exit 0 [] startup_ok [pass_failed_read])
           1 H).
Defined.

(** A poll that fails with [EBADF]. *)
Lemma poll_failure_retried_or_fatal_witness :
  (sel_ret (pass_poll_failed EBADF) < 0
   /\ sel_errno (pass_poll_failed EBADF) <> EINTR
   /\ sel_errno (pass_poll_failed EBADF) <> EAGAIN)
  /\ loop_body 3 (pass_poll_failed EBADF) buffer_init
     = ([EvHostDelay 1000; EvSelect 4 [3] 0 0;
         poll_failure_report 3 EBADF; EvClose 3],
        buffer_init, Stop (Returned (-5)))
  /\ main_loop 3 [pass_poll_failed EBADF; pass_idle] buffer_init
     = ([EvHostDelay 1000; EvSelect 4 [3] 0 0;
         poll_failure_report 3 EBADF; EvClose 3],
        buffer_init, Stop (Returned (-5))).
Proof.
  assert (sel_ret (pass_poll_failed EBADF) < 0) as H1 by (simpl; lia).
  assert (sel_errno (pass_poll_failed EBADF) <> EINTR) as H2
    by (simpl; unfold EBADF, EINTR; lia).
  assert (sel_errno (pass_poll_failed EBADF) <> EAGAIN) as H3
    by (simpl; unfold EBADF, EAGAIN; lia).
  split; [repeat split; assumption|].
  exact (proj2 (poll_failure_retried_or_fatal 3 (pass_poll_failed EBADF)
                  [pass_idle] buffer_init H1) H2 H3).
Defined.

(** The mailbox holds one frame of 46 bytes. *)
Lemma inbound_frame_copied_then_written_witness :
  (wf_buffer buffer_init
   /\ 0 <= sel_ret (pass_pull 46)
   /\ (sel_isset (pass_pull 46) = true -> rd_result (pass_pull 46) <> RdFail)
   /\ 0 < rx_npkt (pass_pull 46)
   /\ 0 <= rx_pkt_len (pass_pull 46) <= MTU_SIZE)
  /\ List.filter is_inbound_call (run_trace (loop_body 3 (pass_pull 46) buffer_init))
     = [EvRxPktValid; EvRxPktPull] ++ get_data_calls 46
         ++ [EvWrite 3 (replicate 46 xaa)]
  /\ get_data_indices (run_trace (loop_body 3 (pass_pull 46) buffer_init))
     = seqZ 0 46
  /\ written_frames (run_trace (loop_body 3 (pass_pull 46) buffer_init))
     = [replicate 46 xaa]
  /\ Z.of_nat (length (replicate 46 xaa)) = 46
  /\ take 46 (run_buffer (loop_body 3 (pass_pull 46) buffer_init))
     = replicate 46 xaa.
Proof.
  assert (wf_buffer buffer_init) as H1 by reflexivity.
  assert (0 <= sel_ret (pass_pull 46)) as H2 by (simpl; lia).
  assert (sel_isset (pass_pull 46) = true -> rd_result (pass_pull 46) <> RdFail)
    as H3 by discriminate.
  assert (0 < rx_npkt (pass_pull 46)) as H4 by (simpl; lia).
  assert (0 <= rx_pkt_len (pass_pull 46) <= MTU_SIZE) as H5
    by (simpl; unfold MTU_SIZE; lia).
  split; [repeat split; first [assumption | apply H5]|].
  exact (inbound_frame_copied_then_written 3 (pass_pull 46) buffer_init
           H1 H2 H3 H4 H5).
Defined.


(** A pull of 1501 bytes, one more than the frame buffer has. *)
Lemma oversize_frame_not_from_buffer_witness :
  (wf_buffer buffer_init
   /\ 0 <= sel_ret (pass_pull 1501)
   /\ (sel_isset (pass_pull 1501) = true -> rd_result (pass_pull 1501) <> RdFail)
   /\ 0 < rx_npkt (pass_pull 1501)
   /\ MTU_SIZE < rx_pkt_len (pass_pull 1501))
  /\ List.filter is_inbound_call
       (run_trace (loop_body 3 (pass_pull 1501) buffer_init))
     = [EvRxPktValid; EvRxPktPull] ++ get_data_events 0 1501
         ++ [EvWriteOutside 3 1501]
  /\ List.filter outside_buffer
       (run_trace (loop_body 3 (pass_pull 1501) buffer_init))
     = [EvRxPktGetData 1500 1500; EvWriteOutside 3 1501]
  /\ written_frames (run_trace (loop_body 3 (pass_pull 1501) buffer_init)) = []
  /\ run_buffer (loop_body 3 (pass_pull 1501) buffer_init)
     = rx_frame (pass_pull 1501) MTU_SIZE.
Proof.
  assert (wf_buffer buffer_init) as H1 by reflexivity.
  assert (0 <= sel_ret (pass_pull 1501)) as H2 by (simpl; lia).
  assert (sel_isset (pass_pull 1501) = true -> rd_result (pass_pull 1501) <> RdFail)
    as H3 by discriminate.
  assert (0 < rx_npkt (pass_pull 1501)) as H4 by (simpl; lia).
  assert (MTU_SIZE < rx_pkt_len (pass_pull 1501)) as H5 by reflexivity.
  split; [repeat split; assumption|].
  exact (oversize_frame_not_from_buffer 3 (pass_pull 1501) buffer_init
           H1 H2 H3 H4 H5).
Defined.

(** Start-up succeeds, one idle pass, then a poll that fails with [EBADF]. *)
Lemma return_codes_name_the_failure_site_witness :
  (0 <= open_ret startup_ok
   /\ 0 <= ioctl_ret startup_ok
   /\ run_result (run 0 [] startup_ok [pass_idle]) = Stop Pending
   /\ poll_is_fatal (pass_poll_failed EBADF))
  /\ run_result (run 0 [] startup_ok [pass_idle; pass_poll_failed EBADF])
     = Stop (Returned (-5)).
Proof.
  assert (0 <= open_ret startup_ok) as H1 by (simpl; lia).
  assert (0 <= ioctl_ret startup_ok) as H2 by (simpl; lia).
  assert (run_result (run 0 [] startup_ok [pass_idle]) = Stop Pending) as H3
    by (vm_compute; reflexivity).
  assert (poll_is_fatal (pass_poll_failed EBADF)) as H4
    by (unfold poll_is_fatal; simpl; unfold EBADF, EINTR, EAGAIN; lia).
  split; [repeat split; first [assumption | apply H4]|].
  exact (proj1 (proj2 (proj2
           (return_codes_name_the_failure_site 0 [] startup_ok
              [pass_idle; pass_poll_failed EBADF])))
           H1 H2 [pass_idle] (pass_poll_failed EBADF) [] eq_refl H3 H4).
Defined.

(** A poll interrupted by a signal, with a frame queued in the mailbox and
    a pass with traffic both ways to follow. *)
Lemma transient_poll_failure_restarts_pass_witness :
  (sel_ret (pass_poll_failed EINTR) < 0
   /\ (sel_errno (pass_poll_failed EINTR) = EINTR
       \/ sel_errno (pass_poll_failed EINTR) = EAGAIN))
  /\ main_loop 3 [pass_poll_failed EINTR; pass_both_ready] buffer_init
     = ([EvHostDelay 1000; EvSelect 4 [3] 0 0]
          ++ run_trace (main_loop 3 [pass_both_ready] buffer_init),
        run_buffer (main_loop 3 [pass_both_ready] buffer_init),
        run_result (main_loop 3 [pass_both_ready] buffer_init)).
Proof.
  assert (sel_ret (pass_poll_failed EINTR) < 0) as H1 by (simpl; lia).
  assert (sel_errno (pass_poll_failed EINTR) = EINTR
          \/ sel_errno (pass_poll_failed EINTR) = EAGAIN) as H2
    by (left; reflexivity).
  split; [split; assumption|].
  exact (proj1 (transient_poll_failure_restarts_pass 3 (pass_poll_failed EINTR)
                  [pass_both_ready] buffer_init H1 H2)).
Defined.

(** * The two wrappers on their own *)

(** X1.  [fd_read]: a failed read is reported and ends the process with status
    1, the buffer untouched.  Otherwise the function returns the number of
    bytes read, which is never negative, never more than [n] and never more
    than the frame held: those bytes are at the start of the buffer, and
    the rest of the buffer is as it was. *)
Theorem fd_read_contract (fd n : Z) (r : read_result) (buf : list byte) :
  (Z.to_nat n <= length buf)%nat ->
  (r = RdFail /\
   fd_read fd n r buf
   = ([EvRead fd n; EvPerror "Reading data"], buf, Stop (Exited 1)))
  \/
  (exists data v b,
     r = RdFrame data /\
     fd_read fd n r buf = ([EvRead fd n], b, Val v) /\
     v = Z.min (Z.max 0 n) (Z.of_nat (length data)) /\
     length b = length buf /\
     take (Z.to_nat v) b = take (Z.to_nat v) data /\
     drop (Z.to_nat v) b = drop (Z.to_nat v) buf).
Proof.
  intros Hn. destruct r as [|data]; [left; split; reflexivity|right].
  set (got := take (Z.to_nat n) data).
  assert (length got = Nat.min (Z.to_nat n) (length data)) as Hgot
    by apply length_take.
  exists data, (Z.of_nat (length got)), (got ++ drop (length got) buf).
  split; [reflexivity|]. split.
  - unfold fd_read, sys_read. fold got.
    erewrite bind_val; last first.
    { erewrite bind_val by reflexivity.
      erewrite bind_val; last first.
      { unfold buf_fill.
        destruct (Nat.leb_spec (length got) (length buf)); [|lia].
        reflexivity. }
      reflexivity. }
    cbn [run_trace run_buffer run_result fst snd app].
    destruct (Z.ltb_spec (Z.of_nat (length got)) 0); [lia|]. reflexivity.
  - split; [lia|]. rewrite Nat2Z.id. split; [|split].
    + rewrite length_app, length_drop. lia.
    + rewrite take_app_length, Hgot. unfold got.
      destruct (Nat.le_ge_cases (Z.to_nat n) (length data)).
      * rewrite Nat.min_l by lia. reflexivity.
      * rewrite Nat.min_r by lia. rewrite !take_ge by lia. reflexivity.
    + rewrite drop_app_length. reflexivity.
Qed.

(** X2.  [fd_write] for a count the buffer holds: [write] is handed exactly the
    first [n] bytes of the buffer, the buffer is not changed, a negative
    result is reported and ends the process with status 1, and any other
    result is returned as it is. *)
Theorem fd_write_contract (fd n r : Z) (buf : list byte) :
  wf_buffer buf -> 0 <= n <= MTU_SIZE ->
  Z.of_nat (length (take (Z.to_nat n) buf)) = n
  /\ ((r < 0 /\
       fd_write fd n r buf
       = ([EvWrite fd (take (Z.to_nat n) buf); EvPerror "Writing data"],
          buf, Stop (Exited 1)))
      \/
      (0 <= r /\
       fd_write fd n r buf
       = ([EvWrite fd (take (Z.to_nat n) buf)], buf, Val r))).
Proof.
  intros Hwf Hn. split.
  - red in Hwf. rewrite length_take. lia.
  - destruct (Z.lt_ge_cases r 0) as [Hr | Hr].
    + left. split; [exact Hr|]. apply fd_write_fail; assumption.
    + right. split; [exact Hr|]. apply fd_write_done; assumption.
Qed.

(** * The hex dump *)

Lemma hex_printed_app (t1 t2 : trace) :
  hex_printed (t1 ++ t2) = hex_printed t1 ++ hex_printed t2.
Proof. apply omap_app'. Qed.

Lemma newlines_printed_app (t1 t2 : trace) :
  newlines_printed (t1 ++ t2) = (newlines_printed t1 + newlines_printed t2)%nat.
Proof.
  unfold newlines_printed. rewrite List.filter_app. apply length_app.
Qed.

Lemma lines_before_step (i : Z) :
  0 <= i ->
  lines_before (i + 1)
  = lines_before i + (if (0 <? i) && (Z.rem i 16 =? 0) then 1 else 0).
Proof.
  intros Hi. unfold lines_before.
  destruct (Z.eqb_spec (i + 1) 0); [lia|].
  replace (i + 1 - 1) with i by lia.
  destruct (Z.eqb_spec i 0) as [-> | Hne]; [reflexivity|].
  destruct (Z.ltb_spec 0 i); [|lia]. cbn [andb].
  rewrite Z.rem_mod_nonneg by lia.
  destruct (Z.eqb_spec (i mod 16) 0); Z.div_mod_to_equations; lia.
Qed.

(** The loop of [print_bytes] from byte [i] on. *)
Lemma print_loop (buf : list byte) (count : nat) (i : Z) :
  0 <= i -> i + Z.of_nat count <= MTU_SIZE ->
  (Z.to_nat i + count <= length buf)%nat ->
  exists t,
    for_from i count
      (fun i => (if (0 <? i) && (Z.rem i 16 =? 0)
                 then emit (EvPrintf "\n" []) else mret tt);;
                b ← buf_load i;
                emit (EvPrintf "%02x " [PInt (Z.of_N (Byte.to_N b))]))
      buf
    = (t, buf, Val tt)
    /\ hex_printed t = byte_value <$> take count (drop (Z.to_nat i) buf)
    /\ Z.of_nat (newlines_printed t)
       = lines_before (i + Z.of_nat count) - lines_before i.
Proof.
  revert i. induction count as [|c IH]; intros i Hi Hmtu Hlen.
  - exists []. split; [reflexivity|]. split; [reflexivity|].
    rewrite Z.add_0_r. cbn. lia.
  - destruct (lookup_lt_is_Some_2 buf (Z.to_nat i)) as [b Hb]; [lia|].
    destruct (IH (i + 1)) as (t & Ht & Hhex & Hnl); [lia|lia|lia|].
    replace (i + 1 + Z.of_nat c) with (i + Z.of_nat (S c)) in Hnl by lia.
    rewrite lines_before_step in Hnl by lia.
    replace (Z.to_nat (i + 1)) with (S (Z.to_nat i)) in Hhex by lia.
    assert (take (S c) (drop (Z.to_nat i) buf)
            = b :: take c (drop (S (Z.to_nat i)) buf)) as Htake
      by (rewrite (drop_S _ _ _ Hb); reflexivity).
    rewrite Htake. clear Htake.
    exists ((if (0 <? i) && (Z.rem i 16 =? 0)
             then [EvPrintf "\n" []] else [])
              ++ [EvPrintf "%02x " [PInt (byte_value b)]] ++ t).
    split; [|split].
    + cbn [for_from].
      erewrite bind_val; last first.
      { erewrite bind_val; last first.
        { instantiate (1 := tt). instantiate (1 := buf).
          instantiate (1 := if (0 <? i) && (Z.rem i 16 =? 0)
                            then [EvPrintf "\n" []] else []).
          destruct ((0 <? i) && (Z.rem i 16 =? 0)); reflexivity. }
        erewrite bind_val by (apply (buf_load_in buf i b); [lia|exact Hb]).
        reflexivity. }
      cbn [run_trace run_buffer run_result fst snd emit app].
      rewrite Ht. cbn [run_trace run_buffer run_result fst snd].
      rewrite <- app_assoc. reflexivity.
    + rewrite !hex_printed_app, Hhex.
      destruct ((0 <? i) && (Z.rem i 16 =? 0)); reflexivity.
    + rewrite !newlines_printed_app.
      change (newlines_printed [EvPrintf "%02x " [PInt (byte_value b)]])
        with 0%nat.
      destruct ((0 <? i) && (Z.rem i 16 =? 0));
        [change (newlines_printed [EvPrintf "\n" []]) with 1%nat
        |change (newlines_printed []) with 0%nat]; lia.
Qed.

(** X3.  [print_bytes] on the first [len] bytes of the buffer: it returns, it
    leaves the buffer alone and it only prints.  What it prints are the
    values of the [len] bytes in order, and line ends: one for every full
    sixteen bytes that are followed by more, and one at the very end.  So
    an empty dump is a single line end, and sixteen bytes make one line. *)
Theorem print_bytes_dump (len : Z) (buf : list byte) :
  0 <= len <= MTU_SIZE -> (Z.to_nat len <= length buf)%nat ->
  exists t,
    print_bytes len buf = (t, buf, Val tt)
    /\ quiet t
    /\ hex_printed t = byte_value <$> take (Z.to_nat len) buf
    /\ Z.of_nat (newlines_printed t)
       = (if len =? 0 then 1 else (len - 1) / 16 + 1).
Proof.
  intros Hlen Hbuf.
  destruct (print_bytes_run buf len Hlen Hbuf) as (t0 & Ht0 & Qt0).
  destruct (print_loop buf (Z.to_nat len) 0) as (t & Ht & Hhex & Hnl);
    [lia|lia|lia|].
  assert (print_bytes len buf = (t ++ [EvPrintf "\n" []], buf, Val tt)) as Hrun.
  { unfold print_bytes, for_upto. erewrite bind_val by exact Ht. reflexivity. }
  rewrite Hrun in Ht0. injection Ht0 as <-.
  exists (t ++ [EvPrintf "\n" []]).
  split; [exact Hrun|]. split; [exact Qt0|].
  change (Z.to_nat 0) with 0%nat in Hhex. rewrite drop_0 in Hhex.
  rewrite Z.add_0_l, Z2Nat.id in Hnl by lia.
  split.
  - rewrite hex_printed_app, Hhex. cbn. apply app_nil_r.
  - rewrite newlines_printed_app.
    change (newlines_printed [EvPrintf "\n" []]) with 1%nat.
    unfold lines_before in Hnl. cbn [Z.eqb] in Hnl.
    destruct (len =? 0); lia.
Qed.

(** * The size of the buffer *)

Lemma keeps_size_ret {A} (a : A) : keeps_size (mret a : M A).
Proof. intros buf. reflexivity. Qed.

Lemma keeps_size_emit (e : event) : keeps_size (emit e).
Proof. intros buf. reflexivity. Qed.

Lemma keeps_size_halt {A} (s : stop) : keeps_size (@halt A s).
Proof. intros buf. reflexivity. Qed.

Lemma keeps_size_bind {A B} (m : M A) (k : A -> M B) :
  keeps_size m -> (forall a, keeps_size (k a)) -> keeps_size (m ≫= k).
Proof.
  intros Hm Hk buf. specialize (Hm buf). unfold mbind, M_bind.
  destruct (m buf) as [[t1 buf1] [a|s]]; cbn in *; [|exact Hm].
  specialize (Hk a buf1).
  destruct (k a buf1) as [[t2 buf2] r2]; cbn in *. lia.
Qed.

Lemma keeps_size_for (body : Z -> M unit) (count : nat) (i : Z) :
  (forall j, keeps_size (body j)) -> keeps_size (for_from i count body).
Proof.
  intros Hbody. revert i. induction count as [|c IH]; intros i.
  - apply keeps_size_ret.
  - cbn [for_from]. apply keeps_size_bind; [apply Hbody|intros _; apply IH].
Qed.

Lemma keeps_size_buf_load (i : Z) : keeps_size (buf_load i).
Proof.
  intros buf. unfold buf_load.
  destruct ((0 <=? i) && (i <? MTU_SIZE)); [destruct (buf !! Z.to_nat i)|];
    reflexivity.
Qed.

Lemma keeps_size_buf_store (i : Z) (b : byte) : keeps_size (buf_store i b).
Proof.
  intros buf. unfold buf_store.
  destruct ((0 <=? i) && (i <? MTU_SIZE));
    cbn; [apply length_insert|reflexivity].
Qed.

Lemma keeps_size_buf_fill (data : list byte) : keeps_size (buf_fill data).
Proof.
  intros buf. unfold buf_fill.
  destruct (Nat.leb_spec (length data) (length buf)); cbn; [|reflexivity].
  rewrite length_app, length_drop. lia.
Qed.

Lemma keeps_size_fd_read (fd n : Z) (r : read_result) :
  keeps_size (fd_read fd n r).
Proof.
  unfold fd_read, sys_read.
  apply keeps_size_bind.
  - apply keeps_size_bind; [apply keeps_size_emit|intros _].
    destruct r; [apply keeps_size_ret|].
    apply keeps_size_bind; [apply keeps_size_buf_fill|].
    intros _. apply keeps_size_ret.
  - intros nread. destruct (nread <? 0); [|apply keeps_size_ret].
    apply keeps_size_bind; [apply keeps_size_emit|].
    intros _. apply keeps_size_halt.
Qed.

Lemma keeps_size_fd_write (fd n r : Z) : keeps_size (fd_write fd n r).
Proof.
  unfold fd_write.
  apply keeps_size_bind.
  - intros buf. reflexivity.
  - intros nwrite. destruct (nwrite <? 0); [|apply keeps_size_ret].
    apply keeps_size_bind; [apply keeps_size_emit|].
    intros _. apply keeps_size_halt.
Qed.

Lemma keeps_size_print_bytes (len : Z) : keeps_size (print_bytes len).
Proof.
  unfold print_bytes, for_upto.
  apply keeps_size_bind; [|intros _; apply keeps_size_emit].
  apply keeps_size_for. intros j.
  apply keeps_size_bind.
  - destruct ((0 <? j) && (Z.rem j 16 =? 0));
      [apply keeps_size_emit|apply keeps_size_ret].
  - intros _. apply keeps_size_bind; [apply keeps_size_buf_load|].
    intros b. apply keeps_size_emit.
Qed.

Lemma keeps_size_outbound (tap_fd : Z) (inp : iter_input) :
  keeps_size (outbound tap_fd inp).
Proof.
  unfold outbound.
  apply keeps_size_bind; [apply keeps_size_fd_read|intros nbytes].
  destruct (negb (nbytes =? 0)); [|apply keeps_size_emit].
  apply keeps_size_bind; [apply keeps_size_emit|intros _].
  apply keeps_size_bind; [apply keeps_size_print_bytes|intros _].
  apply keeps_size_bind; [|intros _; apply keeps_size_emit].
  apply keeps_size_for. intros j.
  apply keeps_size_bind; [apply keeps_size_buf_load|].
  intros b. apply keeps_size_emit.
Qed.

Lemma keeps_size_inbound (tap_fd : Z) (inp : iter_input) :
  keeps_size (inbound tap_fd inp).
Proof.
  unfold inbound.
  apply keeps_size_bind; [apply keeps_size_emit|intros _].
  destruct (0 <? rx_npkt inp); [|apply keeps_size_ret].
  apply keeps_size_bind; [apply keeps_size_emit|intros _].
  apply keeps_size_bind; [apply keeps_size_emit|intros _].
  apply keeps_size_bind.
  - apply keeps_size_for. intros j. unfold get_data_body.
    apply keeps_size_bind; [apply keeps_size_emit|].
    intros _. apply keeps_size_buf_store.
  - intros _. apply keeps_size_bind; [apply keeps_size_fd_write|].
    intros _. apply keeps_size_ret.
Qed.

Lemma keeps_size_poll (tap_fd : Z) (inp : iter_input) :
  keeps_size (poll tap_fd inp).
Proof.
  unfold poll.
  apply keeps_size_bind; [apply keeps_size_emit|intros _].
  apply keeps_size_bind; [apply keeps_size_emit|intros _].
  destruct (sel_ret inp <? 0); [|apply keeps_size_ret].
  destruct (sel_errno inp =? EINTR); [apply keeps_size_halt|].
  destruct (sel_errno inp =? EAGAIN); [apply keeps_size_halt|].
  apply keeps_size_bind; [apply keeps_size_emit|intros _].
  apply keeps_size_bind; [apply keeps_size_emit|intros _].
  apply keeps_size_halt.
Qed.

Lemma keeps_size_loop_body (tap_fd : Z) (inp : iter_input) :
  keeps_size (loop_body tap_fd inp).
Proof.
  unfold loop_body.
  apply keeps_size_bind; [apply keeps_size_poll|intros _].
  apply keeps_size_bind; [|intros _; apply keeps_size_inbound].
  destruct (sel_isset inp); [apply keeps_size_outbound|apply keeps_size_ret].
Qed.

Lemma loop_body_wf (tap_fd : Z) (inp : iter_input) (buf : list byte) :
  wf_buffer buf -> wf_buffer (run_buffer (loop_body tap_fd inp buf)).
Proof.
  unfold wf_buffer. intros Hwf. rewrite keeps_size_loop_body. exact Hwf.
Qed.

(** * How a pass ends, by its answers *)

Ltac zbool :=
  repeat match goal with
         | |- context [?a <? ?b] => destruct (Z.ltb_spec a b); try lia
         | |- context [?a <=? ?b] => destruct (Z.leb_spec a b); try lia
         | |- context [?a =? ?b] => destruct (Z.eqb_spec a b); try lia
         end.

Lemma reaches_inbound_spec (inp : iter_input) :
  reaches_inbound inp = true <->
  0 <= sel_ret inp /\ (sel_isset inp = true -> rd_result inp <> RdFail).
Proof.
  unfold reaches_inbound. split.
  - intros H. apply andb_true_iff in H as [H1 H2].
    apply Z.leb_le in H1. split; [exact H1|].
    intros Hset. rewrite Hset in H2.
    destruct (rd_result inp); [discriminate|discriminate].
  - intros [H1 H2]. apply andb_true_iff. split; [apply Z.leb_le, H1|].
    destruct (sel_isset inp); [|reflexivity].
    destruct (rd_result inp); [exfalso; apply H2; reflexivity|reflexivity].
Qed.

(** The inbound step on a buffer of the right size ends in one of three
    ways, told apart by the count and the result of [write]; the pulled
    length plays no part. *)
Lemma inbound_outcome (tap_fd : Z) (inp : iter_input) (buf : list byte) :
  wf_buffer buf ->
  let r := run_result (inbound tap_fd inp buf) in
  (rx_npkt inp <= 0 /\ r = Val tt)
  \/ (0 < rx_npkt inp /\ 0 <= wr_ret inp /\ r = Val tt)
  \/ (0 < rx_npkt inp /\ wr_ret inp < 0 /\ r = Stop (Exited 1)).
Proof.
  intros Hwf r. unfold r.
  destruct (Z.le_gt_cases (rx_npkt inp) 0) as [Hn | Hn].
  { left. split; [exact Hn|]. rewrite inbound_none by exact Hn. reflexivity. }
  right.
  destruct (inbound_pulled tap_fd inp buf Hwf) as (_ & _ & Hr); [lia|].
  cbv zeta in Hr. rewrite Hr.
  destruct (Z.ltb_spec (wr_ret inp) 0).
  - right. repeat split; lia.
  - left. repeat split; lia.
Qed.

(** One pass on a buffer of the right size: it goes on to the next pass
    exactly when its answers allow, and otherwise it ends in the way the
    first offending answer decides. *)
Lemma loop_body_outcome (tap_fd : Z) (inp : iter_input) (buf : list byte) :
  wf_buffer buf ->
  let r := run_result (loop_body tap_fd inp buf) in
  (pass_continues inp = true /\ (r = Val tt \/ r = Stop Continue))
  \/ (pass_continues inp = false /\ poll_is_fatal inp /\
      r = Stop (Returned (-5)))
  \/ (pass_continues inp = false /\ read_failed inp /\
      r = Stop (Exited 1))
  \/ (pass_continues inp = false /\ pulled_write_failed inp /\
      r = Stop (Exited 1)).
Proof.
  intros Hwf r. unfold r. clear r.
  destruct (Z.lt_ge_cases (sel_ret inp) 0) as [Hneg | Hsel].
  { assert (pass_continues inp
            = (sel_errno inp =? EINTR) || (sel_errno inp =? EAGAIN)) as Hgo.
    { unfold pass_continues. destruct (Z.ltb_spec (sel_ret inp) 0); [|lia].
      reflexivity. }
    destruct (Z.eqb_spec (sel_errno inp) EINTR) as [He | He];
      [|destruct (Z.eqb_spec (sel_errno inp) EAGAIN) as [He' | He']].
    - left. split; [exact Hgo|]. right. unfold loop_body.
      erewrite bind_stop by (apply poll_transient; auto). reflexivity.
    - left. split; [exact Hgo|]. right. unfold loop_body.
      erewrite bind_stop by (apply poll_transient; auto). reflexivity.
    - right; left. split; [exact Hgo|]. split; [repeat split; assumption|].
      unfold loop_body.
      erewrite bind_stop by (apply poll_fatal; auto). reflexivity. }
  assert (pass_continues inp
          = reaches_inbound inp
            && ((rx_npkt inp <=? 0) || (0 <=? wr_ret inp))) as Hgo.
  { unfold pass_continues. destruct (Z.ltb_spec (sel_ret inp) 0); [lia|].
    reflexivity. }
  destruct (reaches_inbound inp) eqn:Hreach.
  - pose proof Hreach as Hreach'.
    apply reaches_inbound_spec in Hreach as [_ Hrd].
    destruct (loop_body_reaches_inbound tap_fd inp buf Hwf Hsel Hrd)
      as (before & buf1 & Hwf1 & _ & Hrun).
    rewrite Hrun. cbn [run_result snd]. rewrite Hgo. cbn [andb].
    destruct (inbound_outcome tap_fd inp buf1 Hwf1)
      as [[Hn Hr] | [(Hn & Hw & Hr) | (Hn & Hw & Hr)]];
      rewrite Hr.
    + left. split; [|left; reflexivity]. zbool; try reflexivity.
    + left. split; [|left; reflexivity]. zbool; try reflexivity.
    + right; right; right.
      split; [zbool; try reflexivity|]. repeat split; assumption.
  - right; right; left. split; [exact Hgo|].
    unfold reaches_inbound in Hreach.
    destruct (Z.leb_spec 0 (sel_ret inp)); [|lia]. cbn [andb] in Hreach.
    destruct (sel_isset inp) eqn:Hset; [|discriminate].
    destruct (rd_result inp) eqn:Hres; [|discriminate].
    split; [repeat split; assumption|].
    rewrite loop_body_failed_read by assumption. reflexivity.
Qed.


(** * How the loop ends, by its answers *)

Lemma main_loop_cons_on (tap_fd : Z) (inp : iter_input)
    (rest : list iter_input) (buf : list byte) :
  run_result (loop_body tap_fd inp buf) = Val tt
  \/ run_result (loop_body tap_fd inp buf) = Stop Continue ->
  main_loop tap_fd (inp :: rest) buf
  = (run_trace (loop_body tap_fd inp buf)
       ++ run_trace (main_loop tap_fd rest
                       (run_buffer (loop_body tap_fd inp buf))),
     run_buffer (main_loop tap_fd rest
                   (run_buffer (loop_body tap_fd inp buf))),
     run_result (main_loop tap_fd rest
                   (run_buffer (loop_body tap_fd inp buf)))).
Proof.
  intros Hr. cbn [main_loop]. unfold while_step.
  destruct (loop_body tap_fd inp buf) as [[t1 buf1] r1].
  cbn [run_trace run_buffer run_result fst snd] in *.
  destruct Hr as [-> | ->];
    destruct (main_loop tap_fd rest buf1) as [[t2 buf2] r2]; reflexivity.
Qed.

Lemma main_loop_cons_off (tap_fd : Z) (inp : iter_input)
    (rest : list iter_input) (buf : list byte) (s : stop) :
  run_result (loop_body tap_fd inp buf) = Stop s ->
  s <> Continue -> s <> Break ->
  main_loop tap_fd (inp :: rest) buf
  = (run_trace (loop_body tap_fd inp buf),
     run_buffer (loop_body tap_fd inp buf), Stop s).
Proof.
  intros Hr Hc Hb. cbn [main_loop]. unfold while_step.
  destruct (loop_body tap_fd inp buf) as [[t1 buf1] r1].
  cbn [run_trace run_buffer run_result fst snd] in *. subst r1.
  destruct s; try reflexivity; contradiction.
Qed.

(** The loop, started on a buffer of the right size, is still running
    after its last recorded pass if every pass goes on; otherwise it has
    stopped, and some pass holds the cause. *)
Lemma main_loop_stop_cause (tap_fd : Z) (script : list iter_input)
    (buf : list byte) :
  wf_buffer buf ->
  match run_result (main_loop tap_fd script buf) with
  | Stop Pending => forallb pass_continues script = true
  | Stop (Returned c) =>
      c = -5 /\ exists inp, In inp script /\ poll_is_fatal inp
  | Stop (Exited s) =>
      s = 1 /\
      exists inp, In inp script /\ (read_failed inp \/ pulled_write_failed inp)
  | _ => False
  end.
Proof.
  revert buf. induction script as [|inp rest IH]; intros buf Hwf.
  - reflexivity.
  - pose proof (loop_body_wf tap_fd inp buf Hwf) as Hwf1.
    destruct (loop_body_outcome tap_fd inp buf Hwf)
      as [[Hgo Hr] | [(Hgo & Hc & Hr) | [(Hgo & Hc & Hr) | (Hgo & Hc & Hr)]]].
    + rewrite (main_loop_cons_on _ _ _ _ Hr). cbn [run_result snd].
      specialize (IH _ Hwf1).
      destruct (run_result (main_loop tap_fd rest _)) as [u|[c|s| | | |]];
        try exact IH.
      * destruct IH as [Hc (x & Hin & Hx)]. split; [exact Hc|].
        exists x. split; [right; exact Hin|exact Hx].
      * destruct IH as [Hc (x & Hin & Hx)]. split; [exact Hc|].
        exists x. split; [right; exact Hin|exact Hx].
      * cbn [forallb]. rewrite Hgo, IH. reflexivity.
    + rewrite (main_loop_cons_off _ _ _ _ _ Hr) by discriminate.
      cbn [run_result snd]. split; [reflexivity|].
      exists inp. split; [left; reflexivity|exact Hc].
    + rewrite (main_loop_cons_off _ _ _ _ _ Hr) by discriminate.
      cbn [run_result snd]. split; [reflexivity|].
      exists inp. split; [left; reflexivity|]. left. exact Hc.
    + rewrite (main_loop_cons_off _ _ _ _ _ Hr) by discriminate.
      cbn [run_result snd]. split; [reflexivity|].
      exists inp. split; [left; reflexivity|]. right. exact Hc.
Qed.


(** * Runs and their causes of ending *)

(** A run that starts ends as its loop ends. *)
Lemma run_result_started (argc : Z) (argv : list string)
    (su : startup_input) (script : list iter_input) (s : stop) :
  0 <= open_ret su -> 0 <= ioctl_ret su ->
  (run_result (run argc argv su script) = Stop s
   <-> run_result (main_loop (open_ret su) script buffer_init) = Stop s).
Proof.
  intros Ho Hi. unfold run.
  destruct (main_started argc argv su script buffer_init Ho Hi)
    as (s0 & Hs & Hrun).
  rewrite Hrun, Hs. cbn [run_result snd]. split; intros [= ->]; reflexivity.
Qed.

Lemma run_result_not_started (argc : Z) (argv : list string)
    (su : startup_input) (script : list iter_input) :
  open_ret su < 0 \/ ioctl_ret su < 0 ->
  exists c, run_result (run argc argv su script) = Stop (Returned c).
Proof.
  intros H. unfold run.
  destruct (Z.lt_ge_cases (open_ret su) 0) as [Ho | Ho].
  { rewrite main_open_failed by exact Ho. eauto. }
  destruct H as [H | H]; [lia|].
  rewrite main_ioctl_failed by assumption. eauto.
Qed.


(** The calls of a pass stay inside the buffer when the pulled length
    fits. *)
Lemma loop_body_in_bounds (tap_fd : Z) (inp : iter_input) (buf : list byte) :
  wf_buffer buf -> pull_fits inp = true ->
  List.filter outside_buffer (run_trace (loop_body tap_fd inp buf)) = [].
Proof.
  intros Hwf Hfit.
  destruct (Z.lt_ge_cases (sel_ret inp) 0) as [Hneg | Hsel].
  { unfold loop_body.
    destruct (Z.eq_dec (sel_errno inp) EINTR) as [He | He];
      [|destruct (Z.eq_dec (sel_errno inp) EAGAIN) as [He' | He']].
    - erewrite bind_stop by (apply poll_transient; auto). reflexivity.
    - erewrite bind_stop by (apply poll_transient; auto). reflexivity.
    - erewrite bind_stop by (apply poll_fatal; auto). reflexivity. }
  destruct (reaches_inbound inp) eqn:Hreach.
  - apply reaches_inbound_spec in Hreach as [_ Hrd].
    destruct (loop_body_reaches_inbound tap_fd inp buf Hwf Hsel Hrd)
      as (before & buf1 & Hwf1 & Hbefore & Hrun).
    rewrite Hrun. cbn [run_trace fst snd].
    rewrite outside_buffer_inbound, List.filter_app, Hbefore. cbn [app].
    rewrite <- outside_buffer_inbound.
    unfold pull_fits in Hfit.
    destruct (Z.leb_spec (rx_npkt inp) 0) as [Hn | Hn].
    + rewrite inbound_none by exact Hn. reflexivity.
    + cbn [orb] in Hfit. apply andb_true_iff in Hfit as [Hl1 Hl2].
      apply Z.leb_le in Hl1, Hl2.
      destruct (inbound_pulled tap_fd inp buf1 Hwf1 Hn) as (Ht & Hwf2 & _).
      cbv zeta in Ht, Hwf2. rewrite Ht.
      rewrite write_call_in by (first [assumption | lia]).
      rewrite !List.filter_app, get_data_events_inside by lia.
      destruct (wr_ret inp <? 0); reflexivity.
  - unfold reaches_inbound in Hreach.
    destruct (Z.leb_spec 0 (sel_ret inp)); [|lia]. cbn [andb] in Hreach.
    destruct (sel_isset inp) eqn:Hset; [|discriminate].
    destruct (rd_result inp) eqn:Hres; [|discriminate].
    rewrite loop_body_failed_read by assumption. reflexivity.
Qed.

Lemma main_loop_in_bounds (tap_fd : Z) (script : list iter_input)
    (buf : list byte) :
  wf_buffer buf -> forallb pull_fits script = true ->
  List.filter outside_buffer (run_trace (main_loop tap_fd script buf)) = [].
Proof.
  revert buf. induction script as [|inp rest IH]; intros buf Hwf Hall.
  - reflexivity.
  - cbn [forallb] in Hall. apply andb_true_iff in Hall as [Hfit Hrest].
    pose proof (loop_body_wf tap_fd inp buf Hwf) as Hwf1.
    pose proof (loop_body_in_bounds tap_fd inp buf Hwf Hfit) as Hin.
    specialize (IH (run_buffer (loop_body tap_fd inp buf)) Hwf1 Hrest).
    cbn [main_loop]. unfold while_step.
    destruct (loop_body tap_fd inp buf) as [[t1 buf1] r1].
    cbn [run_trace run_buffer fst snd] in Hin, IH.
    destruct r1 as [u|[c|st| | | |]]; try exact Hin;
      destruct (main_loop tap_fd rest buf1) as [[t2 buf2] r2];
      cbn [run_trace fst snd] in *;
      rewrite List.filter_app, Hin, IH; reflexivity.
Qed.

(** X5.  No run leaves the frame buffer as long as, in every pass in which the
    mailbox reports a frame, the pulled length is between 0 and
    [MTU_SIZE]: no callee is handed a position or a count outside the
    array, and the program reads no byte outside it. *)
Theorem in_bounds_when_pulls_fit
    (argc : Z) (argv : list string)
    (su : startup_input) (script : list iter_input) :
  forallb pull_fits script = true ->
  List.filter outside_buffer (run_trace (run argc argv su script)) = []
  /\ run_result (run argc argv su script) <> Stop OutOfBounds.
Proof.
  intros Hfit.
  destruct (Z.lt_ge_cases (open_ret su) 0) as [Ho | Ho].
  { unfold run. rewrite main_open_failed by exact Ho.
    split; [reflexivity|discriminate]. }
  destruct (Z.lt_ge_cases (ioctl_ret su) 0) as [Hi | Hi].
  { unfold run. rewrite main_ioctl_failed by assumption.
    split; [reflexivity|discriminate]. }
  split.
  - unfold run.
    destruct (main_started argc argv su script buffer_init Ho Hi)
      as (s & _ & Hrun).
    rewrite Hrun. cbn [run_trace fst snd].
    rewrite List.filter_app, main_loop_in_bounds
      by (first [apply wf_buffer_init | exact Hfit]).
    reflexivity.
  - intros Hoob.
    apply (run_result_started _ _ _ _ _ Ho Hi) in Hoob.
    pose proof (main_loop_stop_cause (open_ret su) script buffer_init
                  wf_buffer_init) as Hc.
    rewrite Hoob in Hc. exact Hc.
Qed.

(** X6.  The process exits only with status 1, only in a run that started, and
    only because, in some pass, the read failed or the write of a pulled
    frame, of whatever length, failed. *)
Theorem exit_only_on_io_failure
    (argc : Z) (argv : list string)
    (su : startup_input) (script : list iter_input) (status : Z) :
  run_result (run argc argv su script) = Stop (Exited status) ->
  status = 1
  /\ 0 <= open_ret su /\ 0 <= ioctl_ret su
  /\ exists inp,
       In inp script /\ (read_failed inp \/ pulled_write_failed inp).
Proof.
  intros Hex.
  destruct (Z.lt_ge_cases (open_ret su) 0) as [Ho | Ho].
  { destruct (run_result_not_started argc argv su script (or_introl Ho))
      as [c Hc]. congruence. }
  destruct (Z.lt_ge_cases (ioctl_ret su) 0) as [Hi | Hi].
  { destruct (run_result_not_started argc argv su script (or_intror Hi))
      as [c Hc]. congruence. }
  apply (run_result_started _ _ _ _ _ Ho Hi) in Hex.
  pose proof (main_loop_stop_cause (open_ret su) script buffer_init
                wf_buffer_init) as Hc.
  rewrite Hex in Hc. destruct Hc as [Hs Hcause].
  repeat split; assumption.
Qed.

(** * Frames across passes *)





(** The outbound mailbox calls of a pass are those that forward the frame
    it reads, whatever else the pass does. *)
Lemma pass_tx_calls (tap_fd : Z) (inp : iter_input) (buf : list byte) :
  wf_buffer buf ->
  List.filter is_tx (run_trace (loop_body tap_fd inp buf))
  = tx_calls_of (host_frame inp).
Proof.
  intros Hwf. unfold host_frame.
  destruct (Z.leb_spec 0 (sel_ret inp)) as [Hsel | Hneg]; cbn [andb].
  - destruct (sel_isset inp) eqn:Hset.
    + destruct (rd_result inp) as [|data] eqn:Hrd.
      * rewrite loop_body_failed_read by assumption. reflexivity.
      * destruct data as [|b data].
        -- rewrite loop_body_empty_read by assumption.
           cbn [run_trace fst snd].
           rewrite !List.filter_app, inbound_no_tx. reflexivity.
        -- destruct (loop_body_frame tap_fd inp buf (b :: data))
             as (dump & Qd & Hrun); try assumption; try discriminate.
           rewrite Hrun. cbn [run_trace fst snd].
           rewrite !List.filter_app.
           rewrite inbound_no_tx, (quiet_no_tx dump Qd), pushes_are_tx.
           cbn [List.filter is_tx poll_calls app]. rewrite app_nil_r.
           unfold frame_read, MTU_SIZE.
           change (Z.to_nat 1500) with (S 1499). reflexivity.
    + rewrite loop_body_idle by assumption. cbn [run_trace fst snd].
      rewrite !List.filter_app, inbound_no_tx. reflexivity.
  - unfold loop_body.
    destruct (Z.eq_dec (sel_errno inp) EINTR) as [He | He];
      [|destruct (Z.eq_dec (sel_errno inp) EAGAIN) as [He' | He']].
    + erewrite bind_stop by (apply poll_transient; auto). reflexivity.
    + erewrite bind_stop by (apply poll_transient; auto). reflexivity.
    + erewrite bind_stop by (apply poll_fatal; auto). reflexivity.
Qed.





(** * Passes with nothing to do *)

(** X8.  Polling with nothing ready has no effect.  Over any number of passes
    in which the descriptor is not readable and the mailbox reports
    nothing, each pass is the delay, the poll and the mailbox query and
    nothing else; the buffer is never touched and the loop goes on. *)
Theorem idle_passes_change_nothing
    (tap_fd : Z) (script : list iter_input) (buf : list byte) :
  Forall idle_pass script ->
  main_loop tap_fd script buf
  = (mjoin ((fun _ => poll_calls tap_fd ++ [EvRxPktValid]) <$> script),
     buf, Stop Pending).
Proof.
  induction 1 as [|inp rest (Hsel & Hset & Hn) _ IH]; [reflexivity|].
  assert (loop_body tap_fd inp buf
          = (poll_calls tap_fd ++ [EvRxPktValid], buf, Val tt)) as Hbody.
  { rewrite loop_body_idle by assumption.
    rewrite inbound_none by exact Hn. reflexivity. }
  rewrite main_loop_cons_on by (rewrite Hbody; left; reflexivity).
  rewrite Hbody. cbn [run_trace run_buffer run_result fst snd].
  rewrite IH. reflexivity.
Qed.

(** * A write that fails, and one that falls short *)


Lemma bind_ext {A B} (m : M A) (k k' : A -> M B) (buf : list byte) :
  (forall a b, k a b = k' a b) -> (m ≫= k) buf = (m ≫= k') buf.
Proof.
  intros Hk. unfold mbind, M_bind.
  destruct (m buf) as [[t1 buf1] [a|s]]; [rewrite Hk|]; reflexivity.
Qed.

Lemma fd_write_result_dropped (fd n r r' : Z) (buf : list byte) :
  0 <= r -> 0 <= r' ->
  (fd_write fd n r;; mret tt) buf = (fd_write fd n r';; mret tt) buf.
Proof.
  intros Hr Hr'. unfold fd_write, sys_write, mbind, M_bind.
  cbn. destruct (Z.ltb_spec r 0); [lia|]. destruct (Z.ltb_spec r' 0); [lia|].
  reflexivity.
Qed.

(** X10.  What [write] returns is looked at only for its sign.  Two passes whose
    answers differ only in a non-negative result of [write] make the same
    calls, leave the same buffer and end the same way: a write that takes
    fewer bytes than asked is neither noticed nor repeated. *)
Theorem short_write_goes_unnoticed
    (tap_fd w : Z) (inp : iter_input) (buf : list byte) :
  0 <= wr_ret inp -> 0 <= w ->
  loop_body tap_fd (with_wr_ret w inp) buf = loop_body tap_fd inp buf.
Proof.
  intros Hr Hw. unfold loop_body.
  change (poll tap_fd (with_wr_ret w inp)) with (poll tap_fd inp).
  change (sel_isset (with_wr_ret w inp)) with (sel_isset inp).
  change (outbound tap_fd (with_wr_ret w inp)) with (outbound tap_fd inp).
  apply bind_ext. intros _ b1. apply bind_ext. intros _ b2.
  unfold inbound.
  change (rx_npkt (with_wr_ret w inp)) with (rx_npkt inp).
  change (rx_pkt_len (with_wr_ret w inp)) with (rx_pkt_len inp).
  change (get_data_body (with_wr_ret w inp)) with (get_data_body inp).
  change (wr_ret (with_wr_ret w inp)) with w.
  apply bind_ext. intros _ b3.
  destruct (0 <? rx_npkt inp); [|reflexivity].
  apply bind_ext. intros _ b4. apply bind_ext. intros _ b5.
  apply bind_ext. intros _ b6.
  apply fd_write_result_dropped; assumption.
Qed.

(** * What every call of a run looks like *)

Section Pass_within.
Variable P : event -> Prop.
Variable tap_fd : Z.
Hypothesis P_delay : P (EvHostDelay 1000).
Hypothesis P_select : P (EvSelect (tap_fd + 1) [tap_fd] 0 0).
Hypothesis P_close : P (EvClose tap_fd).
Hypothesis P_log : forall e, is_log e = true -> P e.
Hypothesis P_read : P (EvRead tap_fd MTU_SIZE).
Hypothesis P_tx : forall e, is_tx e = true -> P e.

Lemma within_poll_at (inp : iter_input) : within P any_stop (poll tap_fd inp).
Proof.
  unfold poll.
  apply within_bind; [apply within_emit, P_delay|intros _].
  apply within_bind; [apply within_emit, P_select|intros _].
  destruct (sel_ret inp <? 0); [|apply within_ret].
  destruct (sel_errno inp =? EINTR); [apply within_halt; exact I|].
  destruct (sel_errno inp =? EAGAIN); [apply within_halt; exact I|].
  apply within_bind; [apply within_emit, P_log; reflexivity|intros _].
  apply within_bind; [apply within_emit, P_close|intros _].
  apply within_halt. exact I.
Qed.

Lemma within_outbound_at (inp : iter_input) :
  within P any_stop (outbound tap_fd inp).
Proof.
  unfold outbound, fd_read, sys_read.
  apply within_bind.
  - apply within_bind.
    + apply within_bind; [apply within_emit, P_read|intros _].
      destruct (rd_result inp); [apply within_ret|].
      apply within_bind; [apply within_buf_fill; exact I|].
      intros _. apply within_ret.
    + intros nread. destruct (nread <? 0); [|apply within_ret].
      apply within_bind; [apply within_emit, P_log; reflexivity|intros _].
      apply within_halt. exact I.
  - intros nbytes.
    destruct (negb (nbytes =? 0)); [|apply within_emit, P_log; reflexivity].
    apply within_bind; [apply within_emit, P_log; reflexivity|intros _].
    apply within_bind; [apply within_print_bytes; auto; exact I|intros _].
    apply within_bind; [|intros _; apply within_emit, P_tx; reflexivity].
    apply within_for. intros j.
    apply within_bind; [apply within_buf_load; exact I|intros b].
    apply within_emit, P_tx. reflexivity.
Qed.

Lemma within_loop_body_at (inp : iter_input) :
  within P any_stop (inbound tap_fd inp) ->
  within P any_stop (loop_body tap_fd inp).
Proof.
  intros Hin. unfold loop_body.
  apply within_bind; [apply within_poll_at|intros _].
  apply within_bind; [|intros _; exact Hin].
  destruct (sel_isset inp); [apply within_outbound_at|apply within_ret].
Qed.

Lemma within_inbound_at (inp : iter_input) :
  (forall e, is_rx e = true -> P e) ->
  (forall n buf, P (write_call tap_fd n buf)) ->
  within P any_stop (inbound tap_fd inp).
Proof.
  intros P_rx P_write. unfold inbound, fd_write.
  apply within_bind; [apply within_emit, P_rx; reflexivity|intros _].
  destruct (0 <? rx_npkt inp); [|apply within_ret].
  apply within_bind; [apply within_emit, P_rx; reflexivity|intros _].
  apply within_bind; [apply within_emit, P_log; reflexivity|intros _].
  apply within_bind.
  - apply within_for. intros j. unfold get_data_body.
    apply within_bind; [apply within_emit, P_rx; reflexivity|intros _].
    apply within_buf_store.
  - intros _. apply within_bind; [|intros _; apply within_ret].
    apply within_bind.
    + intros buf. unfold sys_write. split; [|discriminate].
      repeat constructor. apply P_write.
    + intros nwrite. destruct (nwrite <? 0); [|apply within_ret].
      apply within_bind; [apply within_emit, P_log; reflexivity|intros _].
      apply within_halt. exact I.
Qed.

Lemma main_loop_within (script : list iter_input) (buf : list byte) :
  (forall inp, In inp script -> within P any_stop (loop_body tap_fd inp)) ->
  Forall P (run_trace (main_loop tap_fd script buf)).
Proof.
  revert buf. induction script as [|inp rest IH]; intros buf Hall.
  - constructor.
  - cbn [main_loop]. unfold while_step.
    destruct (Hall inp (or_introl eq_refl) buf) as [Ht _].
    destruct (loop_body tap_fd inp buf) as [[t1 buf1] r1].
    cbn [run_trace fst snd] in Ht.
    assert (Forall P (run_trace (main_loop tap_fd rest buf1))) as Hrest
      by (apply IH; intros x Hx; apply Hall; right; exact Hx).
    destruct (main_loop tap_fd rest buf1) as [[t2 buf2] r2].
    cbn [run_trace fst snd] in Hrest.
    destruct r1 as [[]|[]]; cbn [run_trace fst snd];
      first [exact Ht | apply Forall_app; split; assumption].
Qed.

End Pass_within.

(** X11.  While the mailbox reports nothing, nothing is taken from it: a pass in
    which [host_rx_pkt_valid] answers zero or less makes no pull, no
    indexed copy and no write, whatever else happens in the pass and
    whatever the buffer holds. *)
Theorem nothing_pulled_when_mailbox_empty
    (tap_fd : Z) (inp : iter_input) (buf : list byte) :
  rx_npkt inp <= 0 ->
  List.filter is_inbound_move (run_trace (loop_body tap_fd inp buf)) = [].
Proof.
  intros Hn. apply filter_none.
  apply (within_loop_body_at (fun e => is_inbound_move e = false) tap_fd);
    try reflexivity.
  - intros e. destruct e; cbn; congruence.
  - intros e. destruct e; cbn; congruence.
  - intros b. rewrite inbound_none by exact Hn.
    split; [repeat constructor|discriminate].
Qed.

(** X12.  Every call of every run has the arguments the source gives it: the
    device opened is "/dev/net/tun" for reading and writing; [ioctl],
    [fcntl], [select], [read], [write] and [close] are only ever made on
    the descriptor [open] returned; every read asks for [MTU_SIZE] bytes;
    every [select] watches that descriptor alone with a zero timeout; and
    every delay is of 1000 clocks. *)
Theorem calls_stay_on_the_descriptor
    (argc : Z) (argv : list string)
    (su : startup_input) (script : list iter_input) :
  Forall (on_descriptor (open_ret su)) (run_trace (run argc argv su script)).
Proof.
  unfold run.
  destruct (Z.lt_ge_cases (open_ret su) 0) as [Ho | Ho].
  { rewrite main_open_failed by exact Ho. repeat constructor. }
  destruct (Z.lt_ge_cases (ioctl_ret su) 0) as [Hi | Hi].
  { rewrite main_ioctl_failed by assumption. repeat constructor. }
  destruct (main_started argc argv su script buffer_init Ho Hi)
    as (s & _ & Hrun).
  rewrite Hrun. cbn [run_trace fst snd].
  assert (forall e, is_log e = true -> on_descriptor (open_ret su) e) as Hlog
    by (intros e; destruct e; cbn; first [congruence | constructor]).
  assert (forall e, is_tx e = true -> on_descriptor (open_ret su) e) as Htx
    by (intros e; destruct e; cbn; first [congruence | constructor]).
  assert (forall e, is_rx e = true -> on_descriptor (open_ret su) e) as Hrx
    by (intros e; destruct e; cbn; first [congruence | constructor]).
  apply Forall_app. split; [repeat constructor|].
  apply main_loop_within; try assumption; try (repeat split; fail).
  intros inp _.
  apply within_loop_body_at; try assumption; try (repeat split; fail).
  apply within_inbound_at; try assumption.
  intros n buf. unfold write_call. destruct (count_fits n buf); reflexivity.
Qed.

(** * Pacing *)

Lemma pass_pacing (tap_fd : Z) (inp : iter_input) (buf : list byte) :
  List.filter is_pacing (run_trace (loop_body tap_fd inp buf))
  = poll_calls tap_fd.
Proof.
  unfold loop_body.
  destruct (Z.lt_ge_cases (sel_ret inp) 0) as [Hneg | Hsel].
  - destruct (Z.eq_dec (sel_errno inp) EINTR) as [He | He];
      [|destruct (Z.eq_dec (sel_errno inp) EAGAIN) as [He' | He']].
    + erewrite bind_stop by (apply poll_transient; auto). reflexivity.
    + erewrite bind_stop by (apply poll_transient; auto). reflexivity.
    + erewrite bind_stop by (apply poll_fatal; auto). reflexivity.
  - erewrite bind_val by (apply poll_ready; exact Hsel).
    cbn [run_trace fst snd]. rewrite List.filter_app.
    rewrite (filter_none is_pacing (run_trace _)); [reflexivity|].
    assert (forall e, is_log e = true -> is_pacing e = false) as Hlog
      by (intros e; destruct e; cbn; congruence).
    assert (forall e, is_tx e = true -> is_pacing e = false) as Htx
      by (intros e; destruct e; cbn; congruence).
    assert (forall e, is_rx e = true -> is_pacing e = false) as Hrx
      by (intros e; destruct e; cbn; congruence).
    assert (forall e, is_write e = true -> is_pacing e = false) as Hwr
      by (intros e; destruct e; cbn; congruence).
    apply (within_bind (fun e => is_pacing e = false) any_stop).
    + destruct (sel_isset inp); [|apply within_ret].
      apply within_outbound; unfold any_stop; auto.
    + intros _. apply within_inbound; unfold any_stop; auto.
Qed.

(** X13.  One delay and one poll per pass.  However the passes go, the delays
    and polls of the loop are, for each pass begun, one [host_delay (1000)]
    followed by one [select] with a zero timeout; no pass polls twice or
    skips its delay, and as long as the loop is running every recorded
    pass has been begun. *)
Theorem one_delay_and_poll_per_pass
    (tap_fd : Z) (script : list iter_input) (buf : list byte) :
  exists begun : nat,
    (begun <= length script)%nat
    /\ List.filter is_pacing (run_trace (main_loop tap_fd script buf))
       = mjoin (replicate begun (poll_calls tap_fd))
    /\ (run_result (main_loop tap_fd script buf) = Stop Pending ->
        begun = length script).
Proof.
  revert buf. induction script as [|inp rest IH]; intros buf.
  - exists 0%nat. repeat split; reflexivity.
  - pose proof (pass_pacing tap_fd inp buf) as Hpace.
    destruct (loop_body_end tap_fd inp buf) as [[_ Hrun] | [_ Hr]].
    + exists 1%nat. rewrite main_loop_cons_off with (s := Returned (-5))
        by (rewrite ?Hrun; first [reflexivity | discriminate]).
      cbn [run_trace run_result fst snd length].
      split; [lia|]. split; [|discriminate].
      rewrite Hpace. reflexivity.
    + destruct Hr as [Hr | [Hr | [Hr | Hr]]].
      * destruct (IH (run_buffer (loop_body tap_fd inp buf)))
          as (k & Hk & Htr & Hp).
        exists (S k).
        rewrite main_loop_cons_on by (left; exact Hr).
        cbn [run_trace run_result fst snd length].
        split; [lia|]. split; [|intros H; rewrite Hp by exact H; reflexivity].
        rewrite List.filter_app, Hpace, Htr. reflexivity.
      * destruct (IH (run_buffer (loop_body tap_fd inp buf)))
          as (k & Hk & Htr & Hp).
        exists (S k).
        rewrite main_loop_cons_on by (right; exact Hr).
        cbn [run_trace run_result fst snd length].
        split; [lia|]. split; [|intros H; rewrite Hp by exact H; reflexivity].
        rewrite List.filter_app, Hpace, Htr. reflexivity.
      * exists 1%nat. rewrite main_loop_cons_off with (s := Exited 1)
          by (first [exact Hr | discriminate]).
        cbn [run_trace run_result fst snd length].
        split; [lia|]. split; [|discriminate].
        rewrite Hpace. reflexivity.
      * exists 1%nat. rewrite main_loop_cons_off with (s := OutOfBounds)
          by (first [exact Hr | discriminate]).
        cbn [run_trace run_result fst snd length].
        split; [lia|]. split; [|discriminate].
        rewrite Hpace. reflexivity.
Qed.

(** * The dump and the pushes *)

Lemma hex_printed_none (t : trace) :
  Forall (fun e => is_log e = false) t -> hex_printed t = [].
Proof.
  intros H. apply omap_none. eapply Forall_impl; [exact H|].
  intros e. destruct e; cbn; congruence.
Qed.

Lemma inbound_no_hex (tap_fd : Z) (inp : iter_input) (buf : list byte) :
  wf_buffer buf -> hex_printed (run_trace (inbound tap_fd inp buf)) = [].
Proof.
  intros Hwf.
  destruct (Z.le_gt_cases (rx_npkt inp) 0) as [Hn | Hn].
  { rewrite inbound_none by exact Hn. reflexivity. }
  destruct (inbound_pulled tap_fd inp buf Hwf) as (Ht & _ & _); [lia|].
  cbv zeta in Ht. rewrite Ht.
  rewrite !hex_printed_app.
  rewrite (hex_printed_none (get_data_events _ _))
    by (apply Forall_fmap, Forall_true; reflexivity).
  unfold write_call.
  destruct (count_fits _ _); destruct (wr_ret inp <? 0); reflexivity.
Qed.

(** The outbound step for a frame, with what its dump shows. *)
Lemma outbound_frame_dump (tap_fd : Z) (inp : iter_input) (buf data : list byte) :
  wf_buffer buf -> rd_result inp = RdFrame data -> data <> [] ->
  exists dump,
    hex_printed dump = byte_value <$> frame_read data /\
    outbound tap_fd inp buf
    = ([EvRead tap_fd MTU_SIZE;
        tap_rd_report (Z.of_nat (length (frame_read data)))]
         ++ dump
         ++ (EvTxDataPush <$> frame_read data) ++ [EvTxTransferInit],
       frame_read data ++ drop (length (frame_read data)) buf,
       Val tt).
Proof.
  intros Hwf Hrd Hne.
  pose proof (frame_read_length data) as Hlen.
  assert (frame_read data <> []) as Hne' by (rewrite frame_read_nil; exact Hne).
  set (frame := frame_read data) in *.
  set (buf1 := frame ++ drop (length frame) buf).
  assert (wf_buffer buf1) as Hwf1.
  { apply wf_buffer_fill; [exact Hwf|]. red in Hwf. lia. }
  assert (0 < Z.of_nat (length frame)) as Hpos.
  { destruct frame; [congruence|]. cbn [length]. lia. }
  destruct (print_loop buf1 (length frame) 0) as (tp & Htp & Hhex & _).
  { lia. } { lia. } { red in Hwf1. lia. }
  change (Z.to_nat 0) with 0%nat in Hhex. rewrite drop_0 in Hhex.
  unfold buf1 in Hhex at 1. rewrite take_app_length in Hhex.
  exists (tp ++ [EvPrintf "\n" []]).
  split; [rewrite hex_printed_app, Hhex; cbn; apply app_nil_r|].
  unfold outbound. rewrite Hrd.
  erewrite bind_val by (apply fd_read_frame; exact Hwf).
  fold frame buf1.
  destruct (Z.eqb_spec (Z.of_nat (length frame)) 0); [lia|].
  cbn [negb].
  erewrite bind_val by reflexivity.
  rewrite to_uint32_small by lia.
  assert (print_bytes (Z.of_nat (length frame)) buf1
          = (tp ++ [EvPrintf "\n" []], buf1, Val tt)) as Hprint.
  { unfold print_bytes, for_upto. rewrite Nat2Z.id.
    erewrite bind_val by exact Htp. reflexivity. }
  erewrite bind_val by exact Hprint.
  unfold for_upto. rewrite Nat2Z.id.
  erewrite bind_val; last first.
  { apply push_loop; [lia|lia|]. red in Hwf1. lia. }
  cbn [run_trace run_buffer run_result fst snd emit].
  change (Z.to_nat 0) with 0%nat. rewrite drop_0.
  unfold buf1 at 1. rewrite take_app_length.
  unfold tap_rd_report. cbn [app]. rewrite <- ?app_assoc. reflexivity.
Qed.

Lemma pushed_bytes_pushes (frame : list byte) :
  pushed_bytes (EvTxDataPush <$> frame) = frame.
Proof.
  unfold pushed_bytes. induction frame as [|b frame IH]; [reflexivity|].
  cbn. f_equal. exact IH.
Qed.

Lemma pushed_bytes_filter (t : trace) :
  pushed_bytes t = pushed_bytes (List.filter is_tx t).
Proof.
  unfold pushed_bytes. induction t as [|e t IH]; [reflexivity|].
  destruct e; cbn; rewrite <- ?IH; reflexivity.
Qed.

(** X14.  The log agrees with the transfer.  In a pass that reads a frame of
    [n > 0] bytes, the length reported is [n], the bytes pushed to the
    mailbox are the [n] bytes read, and the values dumped are those of the
    same bytes in the same order; nothing else in the pass prints a byte
    value. *)
Theorem dump_shows_the_frame_pushed
    (tap_fd : Z) (inp : iter_input) (buf data : list byte) :
  wf_buffer buf ->
  0 <= sel_ret inp -> sel_isset inp = true ->
  rd_result inp = RdFrame data -> data <> [] ->
  let t := run_trace (loop_body tap_fd inp buf) in
  In (tap_rd_report (Z.of_nat (length (pushed_bytes t)))) t
  /\ pushed_bytes t = frame_read data
  /\ hex_printed t = byte_value <$> pushed_bytes t.
Proof.
  intros Hwf Hsel Hset Hrd Hne t.
  assert (pushed_bytes t = frame_read data) as Hpushed.
  { unfold t. rewrite pushed_bytes_filter, pass_tx_calls by exact Hwf.
    unfold host_frame. destruct (Z.leb_spec 0 (sel_ret inp)); [|lia].
    rewrite Hset, Hrd. cbn [andb].
    assert (frame_read data <> []) as Hne'
      by (rewrite frame_read_nil; exact Hne).
    destruct (frame_read data) as [|b f] eqn:Hf; [congruence|].
    unfold tx_calls_of, pushed_bytes. rewrite omap_app'.
    fold (pushed_bytes (EvTxDataPush <$> b :: f)).
    rewrite pushed_bytes_pushes. cbn [pushed_bytes omap list_omap].
    apply app_nil_r. }
  rewrite Hpushed.
  destruct (outbound_frame_dump tap_fd inp buf data Hwf Hrd Hne)
    as (dump & Hhex & Hout).
  assert (t = poll_calls tap_fd
              ++ ([EvRead tap_fd MTU_SIZE;
                   tap_rd_report (Z.of_nat (length (frame_read data)))]
                    ++ dump
                    ++ (EvTxDataPush <$> frame_read data)
                    ++ [EvTxTransferInit])
              ++ run_trace
                   (inbound tap_fd inp
                      (frame_read data
                         ++ drop (length (frame_read data)) buf))) as Ht.
  { unfold t, loop_body. rewrite Hset.
    erewrite bind_val by (apply poll_ready; exact Hsel).
    erewrite bind_val by exact Hout. reflexivity. }
  split; [|split; [reflexivity|]].
  - rewrite Ht. apply in_or_app. right. apply in_or_app. left.
    right. left. reflexivity.
  - rewrite Ht. rewrite !hex_printed_app.
    rewrite inbound_no_hex by (apply wf_buffer_frame_read; exact Hwf).
    rewrite Hhex.
    rewrite (hex_printed_none (EvTxDataPush <$> _))
      by (apply Forall_fmap, Forall_true; reflexivity).
    cbn. rewrite !app_nil_r. reflexivity.
Qed.

(** * Frames of no bytes *)

(** X15.  The two directions treat an empty frame differently.  A read of no
    bytes from the host is reported and forwards nothing to the mailbox;
    a frame of length 0 pulled from the mailbox is not skipped: no byte is
    copied, and [write] is called with a count of 0. *)
Theorem empty_frame_skipped_outbound_written_inbound
    (tap_fd : Z) (inp : iter_input) (buf : list byte) :
  wf_buffer buf ->
  0 <= sel_ret inp -> sel_isset inp = true -> rd_result inp = RdFrame [] ->
  0 < rx_npkt inp -> rx_pkt_len inp = 0 ->
  actions (run_trace (loop_body tap_fd inp buf))
  = poll_calls tap_fd
      ++ [EvRead tap_fd MTU_SIZE; EvRxPktValid; EvRxPktPull; EvWrite tap_fd []].
Proof.
  intros Hwf Hsel Hset Hrd Hn Hlen.
  rewrite loop_body_empty_read by assumption. cbn [run_trace fst snd].
  rewrite inbound_frame by (first [assumption | rewrite Hlen; unfold MTU_SIZE; lia]).
  cbn [run_trace fst snd]. rewrite Hlen.
  rewrite !actions_app. destruct (wr_ret inp <? 0); reflexivity.
Qed.

(** * The result of fcntl *)

Lemma lor_has_bits (g c : Z) : Z.land (Z.lor g c) c = c.
Proof.
  apply Z.bits_inj'. intros n Hn.
  rewrite Z.land_spec, Z.lor_spec.
  destruct (Z.testbit g n), (Z.testbit c n); reflexivity.
Qed.

(** X16.  What [fcntl] returns is never checked.  A run that gets the
    descriptor and configures it enters its loop whatever
    [fcntl (tap_fd, F_GETFL, 0)] returned, an error included: the flags
    then set always contain [O_NONBLOCK], and everything after start-up,
    the buffer and the way the run ends are the same for every such
    result. *)
Theorem fcntl_result_never_checked
    (argc : Z) (argv : list string)
    (su : startup_input) (script : list iter_input) (g : Z) :
  0 <= open_ret su -> 0 <= ioctl_ret su ->
  let r := run argc argv su script in
  let r' := run argc argv (with_getfl g su) script in
  In (EvFcntl (open_ret su) F_SETFL (Z.lor g O_NONBLOCK)) (run_trace r')
  /\ Z.land (Z.lor g O_NONBLOCK) O_NONBLOCK = O_NONBLOCK
  /\ take 4 (run_trace r') = take 4 (run_trace r)
  /\ drop 5 (run_trace r') = drop 5 (run_trace r)
  /\ run_buffer r' = run_buffer r
  /\ run_result r' = run_result r.
Proof.
  intros Ho Hi r r'. unfold r, r', run.
  destruct (main_started argc argv su script buffer_init Ho Hi)
    as (s & Hs & Hrun).
  destruct (main_started argc argv (with_getfl g su) script buffer_init Ho Hi)
    as (s' & Hs' & Hrun').
  change (open_ret (with_getfl g su)) with (open_ret su) in *.
  rewrite Hs in Hs'. injection Hs' as <-.
  rewrite Hrun, Hrun'. cbn [run_trace run_buffer run_result fst snd].
  split; [|split; [apply lor_has_bits|repeat split]].
  apply in_or_app. left. do 4 right. left. reflexivity.
Qed.

(** * Further behaviour at sample inputs *)

(** Three bytes pending, 1500 asked for. *)
Lemma fd_read_contract_witness :
  (Z.to_nat 1500 <= length buffer_init)%nat
  /\ fd_read 3 1500 (RdFrame [x01; x02; x03]) buffer_init
     = ([EvRead 3 1500], [x01; x02; x03] ++ drop 3 buffer_init, Val 3).
Proof.
  assert (Z.to_nat 1500 <= length buffer_init)%nat as H by (vm_compute; lia).
  split; [exact H|].
  destruct (fd_read_contract 3 1500 (RdFrame [x01; x02; x03]) buffer_init H)
    as [[Hfail _] | (data & v & b & Hr & Hrun & -> & _ & Htake & Hdrop)];
    [discriminate|].
  injection Hr as <-. rewrite Hrun.
  change (Z.to_nat _) with 3%nat in Htake, Hdrop.
  rewrite <- (take_drop 3 b), Htake, Hdrop. reflexivity.
Defined.

(** Two bytes written from the zeroed buffer. *)
Lemma fd_write_contract_witness :
  (wf_buffer buffer_init /\ 0 <= 2 <= MTU_SIZE)
  /\ fd_write 3 2 2 buffer_init = ([EvWrite 3 [x00; x00]], buffer_init, Val 2).
Proof.
  assert (wf_buffer buffer_init) as H1 by reflexivity.
  assert (0 <= 2 <= MTU_SIZE) as H2 by (unfold MTU_SIZE; lia).
  split; [split; assumption|].
  destruct (fd_write_contract 3 2 2 buffer_init H1 H2)
    as [_ [[Hneg _] | [_ Hrun]]]; [lia|exact Hrun].
Defined.

(** Seventeen bytes: two line ends. *)
Lemma print_bytes_dump_witness :
  (0 <= 17 <= MTU_SIZE /\ (Z.to_nat 17 <= length buffer_init)%nat)
  /\ exists t,
       print_bytes 17 buffer_init = (t, buffer_init, Val tt)
       /\ hex_printed t = replicate 17 0
       /\ newlines_printed t = 2%nat.
Proof.
  assert (0 <= 17 <= MTU_SIZE) as H1 by (unfold MTU_SIZE; lia).
  assert (Z.to_nat 17 <= length buffer_init)%nat as H2 by (vm_compute; lia).
  split; [split; assumption|].
  destruct (print_bytes_dump 17 buffer_init H1 H2)
    as (t & Hrun & _ & Hhex & Hnl).
  exists t. split; [exact Hrun|]. split; [exact Hhex|].
  change (if 17 =? 0 then 1 else (17 - 1) / 16 + 1) with 2 in Hnl. lia.
Defined.


(** A pull of exactly [MTU_SIZE] bytes fits. *)
Lemma in_bounds_when_pulls_fit_witness :
  forallb pull_fits [pass_idle; pass_pull 1500] = true
  /\ List.filter outside_buffer
       (run_trace (run 0 [] startup_ok [pass_idle; pass_pull 1500])) = []
  /\ run_result (run 0 [] startup_ok [pass_idle; pass_pull 1500])
     <> Stop OutOfBounds.
Proof.
  assert (forallb pull_fits [pass_idle; pass_pull 1500] = true) as H
    by reflexivity.
  split; [exact H|].
  exact (in_bounds_when_pulls_fit 0 [] startup_ok
           [pass_idle; pass_pull 1500] H).
Defined.

(** A run ended by the failed write of a pull of length -1. *)
Lemma exit_only_on_io_failure_witness :
  run_result (run 0 [] startup_ok [pass_idle; pass_pull (-1)])
  = Stop (Exited 1)
  /\ exists inp,
       In inp [pass_idle; pass_pull (-1)]
       /\ (read_failed inp \/ pulled_write_failed inp).
Proof.
  assert (run_result (run 0 [] startup_ok [pass_idle; pass_pull (-1)])
          = Stop (Exited 1)) as H by (vm_compute; reflexivity).
  split; [exact H|].
  exact (proj2 (proj2 (proj2
           (exit_only_on_io_failure 0 [] startup_ok
              [pass_idle; pass_pull (-1)] 1 H)))).
Defined.


(** Two idle passes. *)
Lemma idle_passes_change_nothing_witness :
  Forall idle_pass [pass_idle; pass_idle]
  /\ main_loop 3 [pass_idle; pass_idle] buffer_init
     = ([EvHostDelay 1000; EvSelect 4 [3] 0 0; EvRxPktValid;
         EvHostDelay 1000; EvSelect 4 [3] 0 0; EvRxPktValid],
        buffer_init, Stop Pending).
Proof.
  assert (idle_pass pass_idle) as H0
    by (unfold idle_pass; simpl; repeat split; lia).
  assert (Forall idle_pass [pass_idle; pass_idle]) as H
    by (constructor; [exact H0|constructor; [exact H0|constructor]]).
  split; [exact H|].
  exact (idle_passes_change_nothing 3 [pass_idle; pass_idle] buffer_init H).
Defined.


(** A write of two bytes that takes only one. *)
Lemma short_write_goes_unnoticed_witness :
  (0 <= wr_ret pass_both_ready /\ 0 <= 1)
  /\ loop_body 3 (with_wr_ret 1 pass_both_ready) buffer_init
     = loop_body 3 pass_both_ready buffer_init.
Proof.
  assert (0 <= wr_ret pass_both_ready) as H1 by (simpl; lia).
  assert (0 <= 1) as H2 by lia.
  split; [split; assumption|].
  exact (short_write_goes_unnoticed 3 1 pass_both_ready buffer_init H1 H2).
Defined.

(** A read of zero bytes with an empty mailbox. *)
Lemma nothing_pulled_when_mailbox_empty_witness :
  rx_npkt pass_zero_read <= 0
  /\ List.filter is_inbound_move
       (run_trace (loop_body 3 pass_zero_read buffer_init)) = [].
Proof.
  assert (rx_npkt pass_zero_read <= 0) as H by (simpl; lia).
  split; [exact H|].
  exact (nothing_pulled_when_mailbox_empty 3 pass_zero_read buffer_init H).
Defined.

(** A three-byte frame from the host. *)
Lemma dump_shows_the_frame_pushed_witness :
  (wf_buffer buffer_init
   /\ 0 <= sel_ret pass_both_ready
   /\ sel_isset pass_both_ready = true
   /\ rd_result pass_both_ready = RdFrame [x01; x02; x03]
   /\ [x01; x02; x03] <> [])
  /\ pushed_bytes (run_trace (loop_body 3 pass_both_ready buffer_init))
     = [x01; x02; x03]
  /\ hex_printed (run_trace (loop_body 3 pass_both_ready buffer_init))
     = byte_value
         <$> pushed_bytes (run_trace (loop_body 3 pass_both_ready buffer_init)).
Proof.
  assert (wf_buffer buffer_init) as H1 by reflexivity.
  assert (0 <= sel_ret pass_both_ready) as H2 by (simpl; lia).
  assert (sel_isset pass_both_ready = true) as H3 by reflexivity.
  assert (rd_result pass_both_ready = RdFrame [x01; x02; x03]) as H4
    by reflexivity.
  assert ([x01; x02; x03] <> []) as H5 by discriminate.
  split; [repeat split; assumption|].
  exact (proj2 (dump_shows_the_frame_pushed 3 pass_both_ready buffer_init
                  [x01; x02; x03] H1 H2 H3 H4 H5)).
Defined.

(** A read of no bytes and a pulled frame of no bytes. *)
Lemma empty_frame_witness :
  (wf_buffer buffer_init
   /\ 0 <= sel_ret pass_empty_both
   /\ sel_isset pass_empty_both = true
   /\ rd_result pass_empty_both = RdFrame []
   /\ 0 < rx_npkt pass_empty_both
   /\ rx_pkt_len pass_empty_both = 0)
  /\ actions (run_trace (loop_body 3 pass_empty_both buffer_init))
     = [EvHostDelay 1000; EvSelect 4 [3] 0 0;
        EvRead 3 1500; EvRxPktValid; EvRxPktPull; EvWrite 3 []].
Proof.
  assert (wf_buffer buffer_init) as H1 by reflexivity.
  assert (0 <= sel_ret pass_empty_both) as H2 by (simpl; lia).
  assert (sel_isset pass_empty_both = true) as H3 by reflexivity.
  assert (rd_result pass_empty_both = RdFrame []) as H4 by reflexivity.
  assert (0 < rx_npkt pass_empty_both) as H5 by (simpl; lia).
  assert (rx_pkt_len pass_empty_both = 0) as H6 by reflexivity.
  split; [repeat split; assumption|].
  exact (empty_frame_skipped_outbound_written_inbound 3 pass_empty_both
           buffer_init H1 H2 H3 H4 H5 H6).
Defined.

(** [fcntl (..., F_GETFL, 0)] fails with -1. *)
Lemma fcntl_result_never_checked_witness :
  (0 <= open_ret startup_ok /\ 0 <= ioctl_ret startup_ok)
  /\ In (EvFcntl 3 F_SETFL (-1))
       (run_trace (run 0 [] (with_getfl (-1) startup_ok) [pass_both_ready]))
  /\ run_result (run 0 [] (with_getfl (-1) startup_ok) [pass_both_ready])
     = run_result (run 0 [] startup_ok [pass_both_ready]).
Proof.
  assert (0 <= open_ret startup_ok) as H1 by (simpl; lia).
  assert (0 <= ioctl_ret startup_ok) as H2 by (simpl; lia).
  split; [split; assumption|].
  destruct (fcntl_result_never_checked 0 [] startup_ok [pass_both_ready] (-1)
              H1 H2) as (Hin & _ & _ & _ & _ & Hres).
  split; [exact Hin|exact Hres].
Defined.
